(** * The external-process retrieval bridge of medical-rag

    A shallow embedding of [src/lib/rag-server.ts]: the two exported
    functions [queryFAISSVectorStore] and [checkRAGSystemStatus], the
    fragment of the ECMAScript runtime they rely on (strings, numbers,
    [JSON.parse], property access, truthiness, template-literal coercion)
    and the fragment of Node's [child_process] they observe (the events of
    a spawned child and the promise the executor settles); then the code
    around them: the part of the chat route that calls both, the status
    route, the stream the chat routes write and the checks of the image
    route. *)

From Stdlib Require Import ZArith NArith List String Ascii Lia Bool DecimalString.
Import ListNotations.

Local Open Scope Z_scope.

(** ** ECMAScript strings

    A JavaScript string is a finite sequence of UTF-16 code units. The
    limit an engine puts on the length of a string is not modelled. *)

Definition jsstring : Type := list N.

(** An ASCII literal as a JavaScript string. *)
Definition lit (s : string) : jsstring := map N_of_ascii (list_ascii_of_string s).

Definition jsstring_eqb (a b : jsstring) : bool :=
  if list_eq_dec N.eq_dec a b then true else false.

Fixpoint starts_with (pat s : jsstring) : bool :=
  match pat, s with
  | [], _ => true
  | _ :: _, [] => false
  | p :: pat', c :: s' => N.eqb p c && starts_with pat' s'
  end.

(** [String.prototype.indexOf(searchString)] counted from position [i]:
    the position of the first occurrence, [-1] when there is none. *)
Fixpoint indexOf_from (s pat : jsstring) (i : Z) : Z :=
  if starts_with pat s then i
  else match s with
       | [] => -1
       | _ :: s' => indexOf_from s' pat (i + 1)
       end.

Definition indexOf (s pat : jsstring) : Z := indexOf_from s pat 0.

(** [String.prototype.substring(start)] with the end omitted: a negative
    start is taken as 0 and one past the end as the length. *)
Definition substring (s : jsstring) (start : Z) : jsstring :=
  skipn (Z.to_nat (Z.max 0 start)) s.

(** ** ECMAScript numbers

    A Number is an IEEE 754 binary64 value. A finite one is kept as its
    sign, its integral significand [m] and its exponent [e], the value
    being [m * 2^e], in the format's canonical form: [2^52 <= m < 2^53]
    and [-1074 <= e <= 971] for a normal number, [m < 2^52] and
    [e = -1074] for a subnormal one and for zero. *)

Module Number.

Inductive t : Type :=
| NaN
| Infinity (neg : bool)
| Finite (neg : bool) (m : N) (e : Z).

Definition eqb (x y : t) : bool :=
  match x, y with
  | NaN, NaN => true
  | Infinity a, Infinity b => Bool.eqb a b
  | Finite a m e, Finite b m' e' => Bool.eqb a b && N.eqb m m' && Z.eqb e e'
  | _, _ => false
  end.

(** The integer nearest to [a / b], a tie going to the even one
    ([0 <= a], [0 < b]). *)
Definition div_nearest_even (a b : Z) : Z :=
  let q := a / b in
  match 2 * (a mod b) ?= b with
  | Lt => q
  | Gt => q + 1
  | Eq => if Z.even q then q else q + 1
  end.

(** [floor (log2 (p / q))] for positive [p] and [q]. *)
Definition log2_ratio (p q : Z) : Z :=
  let d := Z.log2 p - Z.log2 q in
  if (if 0 <=? d then q * 2 ^ d <=? p else q <=? p * 2 ^ (- d))
  then d else d - 1.

(** The Number value for the rational [p / q] ([0 <= p], [0 < q]) with
    the given sign: round to nearest, ties to even, overflow to
    infinity. *)
Definition of_ratio (neg : bool) (p q : Z) : t :=
  if p =? 0 then Finite neg 0 (-1074)
  else
    let e := Z.max (log2_ratio p q - 52) (-1074) in
    let m := div_nearest_even (p * 2 ^ Z.max 0 (- e)) (q * 2 ^ Z.max 0 e) in
    let '(m, e) := if m =? 2 ^ 53 then (2 ^ 52, e + 1) else (m, e) in
    if 971 <? e then Infinity neg else Finite neg (Z.to_N m) e.

(** The Number value for the decimal [m * 10^e10]. *)
Definition of_decimal (neg : bool) (m : N) (e10 : Z) : t :=
  if 0 <=? e10 then of_ratio neg (Z.of_N m * 10 ^ e10) 1
  else of_ratio neg (Z.of_N m) (10 ^ (- e10)).

Definition of_Z (z : Z) : t := of_ratio (z <? 0) (Z.abs z) 1.

Definition is_zero (x : t) : bool :=
  match x with Finite _ 0%N _ => true | _ => false end.

(** [x <= 0], false for NaN as every comparison with NaN is. *)
Definition nonpositive (x : t) : bool :=
  match x with
  | NaN => false
  | Infinity neg => neg
  | Finite neg m _ => neg || N.eqb m 0
  end.

(** The decimal digits of a natural number. *)
Definition decimal (n : Z) : jsstring :=
  lit (NilEmpty.string_of_uint (N.to_uint (Z.to_N n))).

(** [floor (log10 (p / q))] for positive [p] and [q]. *)
Definition log10_ratio (p q : Z) : Z :=
  if q <=? p then Z.of_nat (List.length (decimal (p / q))) - 1
  else - Z.of_nat (List.length (decimal ((q - 1) / p))).

(** The candidates with [k] significant digits for the positive value
    [p / q] of decimal magnitude [n] ([10^(n-1) <= p/q < 10^n]): the
    [k]-digit decimals just below and just above it, the nearer one
    first (the even one on a tie), each as its digits [s] and its
    magnitude. *)
Definition candidates (p q n k : Z) : list (Z * Z) :=
  let t := n - k in
  let num := p * 10 ^ Z.max 0 (- t) in
  let den := q * 10 ^ Z.max 0 t in
  let lo := num / den in
  let hi := lo + 1 in
  let below := (lo, n) in
  let above := if hi =? 10 ^ k then (10 ^ (k - 1), n + 1) else (hi, n) in
  match 2 * (num mod den) ?= den with
  | Lt => [below; above]
  | Gt => [above; below]
  | Eq => if Z.even lo then [below; above] else [above; below]
  end.

Definition round_trips (x : t) (k : Z) (c : Z * Z) : bool :=
  let '(s, n) := c in eqb (of_decimal false (Z.to_N s) (n - k)) x.

(** The least number of digits [k], from [k] on, with a candidate that
    reads back as [x], and that candidate. *)
Fixpoint shortest (fuel : nat) (x : t) (p q n k : Z) : Z * (Z * Z) :=
  match find (round_trips x k) (candidates p q n k) with
  | Some c => (k, c)
  | None =>
      match fuel with
      | O => (k, (p * 10 ^ Z.max 0 (k - n) / (q * 10 ^ Z.max 0 (n - k)), n))
      | S fuel' => shortest fuel' x p q n (k + 1)
      end
  end.

Definition zeros (n : Z) : jsstring := repeat 48%N (Z.to_nat n).

(** The rendering of a positive finite value from its shortest digits
    [s] ([k] of them) and magnitude [n]: Number::toString, steps 6-10. *)
Definition format (s k n : Z) : jsstring :=
  let ds := decimal s in
  if (k <=? n) && (n <=? 21) then ds ++ zeros (n - k)
  else if (0 <? n) && (n <=? 21) then
    firstn (Z.to_nat n) ds ++ lit "." ++ skipn (Z.to_nat n) ds
  else if (-6 <? n) && (n <=? 0) then lit "0." ++ zeros (- n) ++ ds
  else
    let exponent :=
      lit "e" ++ (if 0 <? n - 1 then lit "+" else lit "-") ++ decimal (Z.abs (n - 1)) in
    if k =? 1 then ds ++ exponent
    else firstn 1 ds ++ lit "." ++ skipn 1 ds ++ exponent.

(** [Number.prototype.toString()] in radix 10. *)
Definition toString (x : t) : jsstring :=
  match x with
  | NaN => lit "NaN"
  | Infinity neg => (if neg then lit "-" else []) ++ lit "Infinity"
  | Finite _ 0%N _ => lit "0"
  | Finite neg m e =>
      let p := Z.of_N m * 2 ^ Z.max 0 e in
      let q := 2 ^ Z.max 0 (- e) in
      let n := log10_ratio p q + 1 in
      let '(k, (s, n')) := shortest 17 (Finite false m e) p q n 1 in
      (if neg then lit "-" else []) ++ format s k n'
  end.

End Number.

(** ** ECMAScript values, exceptions and completions *)

(** The values [JSON.parse] produces, and [undefined], which reading an
    absent property gives. The properties of an object are kept in
    creation order; the source reads properties by name and never
    enumerates them. *)
#[warnings="-register-all"]
Inductive value : Type :=
| VUndefined
| VNull
| VBool (b : bool)
| VNumber (x : Number.t)
| VString (s : jsstring)
| VArray (elements : list value)
| VObject (properties : list (jsstring * value)).

(** The exceptions that reach the two functions. The text of an engine's
    message is not modelled: an exception stands for its own message. *)
Inductive exn : Type :=
| SyntaxError (text : jsstring)
    (* JSON.parse applied to a text that is not JSON *)
| TypeError_property_of_nullish (name : jsstring)
    (* reading a property of null or undefined *)
| TypeError_to_primitive
    (* an object that cannot be converted to a primitive value *)
| HostError (message : jsstring).
    (* an Error raised by Node: process.cwd, spawn, the 'error' event *)

(** The outcome of evaluating a piece of code: a value, or an exception
    thrown. *)
Inductive completion (A : Type) : Type :=
| Normal (a : A)
| Throw (e : exn).

Arguments Normal {A} a.
Arguments Throw {A} e.

Definition bind {A B : Type} (c : completion A) (k : A -> completion B) : completion B :=
  match c with
  | Normal a => k a
  | Throw e => Throw e
  end.

(** [try { body } catch (e) { handler }] *)
Definition try_catch {A : Type} (body : completion A) (handler : exn -> completion A)
  : completion A :=
  match body with
  | Normal a => Normal a
  | Throw e => handler e
  end.

Declare Scope js_scope.
Delimit Scope js_scope with js.
Notation "x <- c ;; k" := (bind c (fun x => k))
  (at level 61, c at next level, right associativity) : js_scope.
Notation "c ;;; k" := (bind c (fun _ => k))
  (at level 61, right associativity) : js_scope.
Local Open Scope js_scope.

(** *** Own properties *)

Fixpoint own_property (props : list (jsstring * value)) (name : jsstring) : option value :=
  match props with
  | [] => None
  | (k, v) :: props' => if jsstring_eqb k name then Some v else own_property props' name
  end.

(** CreateDataProperty: a property defined again keeps its place and takes
    the new value. *)
Fixpoint define_property (props : list (jsstring * value)) (name : jsstring) (v : value)
  : list (jsstring * value) :=
  match props with
  | [] => [(name, v)]
  | (k, w) :: props' =>
      if jsstring_eqb k name then (k, v) :: props'
      else (k, w) :: define_property props' name v
  end.

(** [v.name] for a name that no built-in prototype defines and that is
    neither an index nor [length], which holds of the five names the source
    reads ([error], [chunks], [chunk_count], [ready], [doc_count]): an
    object gives its own property, every other value but null and
    undefined gives undefined. *)
Definition get (v : value) (name : jsstring) : completion value :=
  match v with
  | VUndefined | VNull => Throw (TypeError_property_of_nullish name)
  | VObject props =>
      match own_property props name with
      | Some w => Normal w
      | None => Normal VUndefined
      end
  | _ => Normal VUndefined
  end.

(** ToBoolean: what [if (v)], [v ? a : b] and [v || w] test. *)
Definition ToBoolean (v : value) : bool :=
  match v with
  | VUndefined | VNull => false
  | VBool b => b
  | VNumber x =>
      match x with
      | Number.NaN => false
      | _ => negb (Number.is_zero x)
      end
  | VString s => match s with [] => false | _ => true end
  | VArray _ | VObject _ => true
  end.

(** ToString, as a template literal applies it to a substitution. An
    array is joined with commas, null and undefined elements giving the
    empty string. For an object of [JSON.parse], OrdinaryToPrimitive calls
    [Object.prototype.toString] unless the object has an own [toString]
    property, which is never callable: then it goes on to [valueOf], which
    gives no primitive, and a TypeError is thrown. *)
Fixpoint ToString (v : value) : completion jsstring :=
  match v with
  | VUndefined => Normal (lit "undefined")
  | VNull => Normal (lit "null")
  | VBool b => Normal (if b then lit "true" else lit "false")
  | VNumber x => Normal (Number.toString x)
  | VString s => Normal s
  | VArray elements =>
      (fix join (l : list value) : completion jsstring :=
         match l with
         | [] => Normal []
         | x :: rest =>
             s <- match x with
                  | VUndefined | VNull => Normal []
                  | _ => ToString x
                  end ;;
             match rest with
             | [] => Normal s
             | _ => r <- join rest ;; Normal (s ++ lit "," ++ r)
             end
         end) elements
  | VObject props =>
      match own_property props (lit "toString") with
      | Some _ => Throw TypeError_to_primitive
      | None => Normal (lit "[object Object]")
      end
  end.

(** ** JSON.parse *)

Module JSON.

Local Open Scope N_scope.

Definition is_whitespace (c : N) : bool :=
  (c =? 9) || (c =? 10) || (c =? 13) || (c =? 32).

Fixpoint skip_whitespace (s : jsstring) : jsstring :=
  match s with
  | c :: s' => if is_whitespace c then skip_whitespace s' else s
  | [] => []
  end.

Definition is_digit (c : N) : bool := (48 <=? c) && (c <=? 57).

Definition hex_digit (c : N) : option N :=
  if (48 <=? c) && (c <=? 57) then Some (c - 48)
  else if (65 <=? c) && (c <=? 70) then Some (c - 55)
  else if (97 <=? c) && (c <=? 102) then Some (c - 87)
  else None.

Definition hex4 (a b c d : N) : option N :=
  match hex_digit a, hex_digit b, hex_digit c, hex_digit d with
  | Some a, Some b, Some c, Some d => Some (((a * 16 + b) * 16 + c) * 16 + d)
  | _, _, _, _ => None
  end.

(** JSONEscapeSequence, one character after the backslash. *)
Definition escape (c : N) : option N :=
  if c =? 34 then Some 34          (* quotation mark *)
  else if c =? 47 then Some 47     (* solidus *)
  else if c =? 92 then Some 92     (* reverse solidus *)
  else if c =? 98 then Some 8      (* b: backspace *)
  else if c =? 102 then Some 12    (* f: form feed *)
  else if c =? 110 then Some 10    (* n: line feed *)
  else if c =? 114 then Some 13    (* r: carriage return *)
  else if c =? 116 then Some 9     (* t: tab *)
  else None.

(** The characters of a JSONString after its opening quote, up to and
    with the closing one. *)
Fixpoint string_characters (s : jsstring) (acc : jsstring) : option (jsstring * jsstring) :=
  match s with
  | [] => None
  | c :: s' =>
      if c =? 34 then Some (rev acc, s')
      else if c =? 92 then
        match s' with
        | 117 :: h1 :: h2 :: h3 :: h4 :: s'' =>
            match hex4 h1 h2 h3 h4 with
            | Some u => string_characters s'' (u :: acc)
            | None => None
            end
        | e :: s'' =>
            match escape e with
            | Some u => string_characters s'' (u :: acc)
            | None => None
            end
        | [] => None
        end
      else if c <? 32 then None
      else string_characters s' (c :: acc)
  end.

(** The longest run of decimal digits at the head of [s], as their
    count and value on top of [acc], and what follows it. *)
Fixpoint digits (s : jsstring) (count acc : N) : N * N * jsstring :=
  match s with
  | c :: s' => if is_digit c then digits s' (count + 1) (acc * 10 + (c - 48))
               else (count, acc, s)
  | [] => (count, acc, [])
  end.

(** The integer part of a JSONNumber: a single 0, or a digit other than
    0 and the digits that follow it. *)
Definition integer_part (s : jsstring) : option (N * jsstring) :=
  match s with
  | 48 :: s' => Some (0, s')
  | c :: _ => if is_digit c then let '(_, m, s') := digits s 0 0 in Some (m, s')
              else None
  | [] => None
  end.

(** The optional fraction: a point and at least one digit. The digits go
    on top of the mantissa [m]; their count comes first. *)
Definition fraction_part (m : N) (s : jsstring) : option (N * N * jsstring) :=
  match s with
  | 46 :: s' =>
      let '(count, m', r) := digits s' 0 m in
      if count =? 0 then None else Some (count, m', r)
  | _ => Some (0, m, s)
  end.

(** The optional exponent: e or E, an optional sign and at least one
    digit. *)
Definition exponent_part (s : jsstring) : option (Z * jsstring) :=
  match s with
  | c :: s' =>
      if (c =? 101) || (c =? 69) then
        let '(minus, t) :=
          match s' with
          | 45 :: t => (true, t)
          | 43 :: t => (false, t)
          | _ => (false, s')
          end in
        let '(count, e, r) := digits t 0 0 in
        if count =? 0 then None
        else Some (if minus then (- Z.of_N e)%Z else Z.of_N e, r)
      else Some (0%Z, s)
  | [] => Some (0%Z, s)
  end.

(** JSONNumber: an optional minus sign, the integer part, the optional
    fraction and the optional exponent. *)
Definition number (s : jsstring) : option (Number.t * jsstring) :=
  let '(neg, s) := match s with 45 :: s' => (true, s') | _ => (false, s) end in
  match integer_part s with
  | None => None
  | Some (m, s) =>
      match fraction_part m s with
      | None => None
      | Some (scale, m, s) =>
          match exponent_part s with
          | None => None
          | Some (e, s) => Some (Number.of_decimal neg m (e - Z.of_N scale)%Z, s)
          end
      end
  end.

(** The text after the character [c], when [c] is the first character of
    [s] that is not whitespace. *)
Definition expect (c : N) (s : jsstring) : option jsstring :=
  match skip_whitespace s with
  | d :: r => if d =? c then Some r else None
  | [] => None
  end.

(** JSONValue, the elements of an array after its opening bracket and the
    members of an object after its opening brace. Each call uses up one
    unit of [fuel]; [parse] gives enough for the whole text. *)
Fixpoint value_ (fuel : nat) (s : jsstring) : option (value * jsstring) :=
  match fuel with
  | O => None
  | S fuel =>
      match skip_whitespace s with
      | [] => None
      | c :: r =>
          if c =? 123 then                                   (* left brace *)
            match expect 125 r with                          (* right brace *)
            | Some r' => Some (VObject [], r')
            | None => members fuel r []
            end
          else if c =? 91 then                               (* left bracket *)
            match expect 93 r with                           (* right bracket *)
            | Some r' => Some (VArray [], r')
            | None => elements fuel r []
            end
          else if c =? 34 then                               (* quotation mark *)
            match string_characters r [] with
            | Some (str, r') => Some (VString str, r')
            | None => None
            end
          else if starts_with (lit "true") (c :: r) then Some (VBool true, skipn 4 (c :: r))
          else if starts_with (lit "false") (c :: r) then Some (VBool false, skipn 5 (c :: r))
          else if starts_with (lit "null") (c :: r) then Some (VNull, skipn 4 (c :: r))
          else
            match number (c :: r) with
            | Some (x, r') => Some (VNumber x, r')
            | None => None
            end
      end
  end
with elements (fuel : nat) (s : jsstring) (acc : list value) : option (value * jsstring) :=
  match fuel with
  | O => None
  | S fuel =>
      match value_ fuel s with
      | Some (v, r) =>
          match expect 44 r with                             (* comma *)
          | Some r' => elements fuel r' (v :: acc)
          | None =>
              match expect 93 r with                         (* right bracket *)
              | Some r' => Some (VArray (rev (v :: acc)), r')
              | None => None
              end
          end
      | None => None
      end
  end
with members (fuel : nat) (s : jsstring) (acc : list (jsstring * value))
  : option (value * jsstring) :=
  match fuel with
  | O => None
  | S fuel =>
      match expect 34 s with                                 (* quotation mark *)
      | Some r =>
          match string_characters r [] with
          | Some (key, r1) =>
              match expect 58 r1 with                        (* colon *)
              | Some r2 =>
                  match value_ fuel r2 with
                  | Some (v, r3) =>
                      match expect 44 r3 with                (* comma *)
                      | Some r4 => members fuel r4 (define_property acc key v)
                      | None =>
                          match expect 125 r3 with           (* right brace *)
                          | Some r4 => Some (VObject (define_property acc key v), r4)
                          | None => None
                          end
                      end
                  | None => None
                  end
              | None => None
              end
          | None => None
          end
      | None => None
      end
  end.

(** [JSON.parse(text)] without a reviver: the value of a text that is
    one JSON value between optional whitespace, a SyntaxError
    otherwise. *)
Definition parse (text : jsstring) : completion value :=
  match value_ (2 * List.length text + 1) text with
  | Some (v, rest) =>
      match skip_whitespace rest with
      | [] => Normal v
      | _ => Throw (SyntaxError text)
      end
  | None => Throw (SyntaxError text)
  end.

End JSON.

(** ** Node: promises and child processes *)

(** The state of the promise an executor is given [resolve] and [reject]
    for. *)
Inductive promise (A : Type) : Type :=
| Pending
| Fulfilled (a : A)
| Rejected (reason : exn).

Arguments Pending {A}.
Arguments Fulfilled {A} a.
Arguments Rejected {A} reason.

(** [resolve(a)] and [reject(reason)] settle a pending promise and do
    nothing to a settled one. The values the source resolves with are
    never thenables. *)
Definition resolve {A : Type} (a : A) (p : promise A) : promise A :=
  match p with Pending => Fulfilled a | _ => p end.

Definition reject {A : Type} (reason : exn) (p : promise A) : promise A :=
  match p with Pending => Rejected reason | _ => p end.

(** What a [ChildProcess] with a piped stdout emits to the listeners the
    source registers. *)
Inductive event : Type :=
| Data (chunk : jsstring)
    (* stdout 'data'; the chunk is data.toString() *)
| Close (code : option Z)
    (* 'close'; the code is null when a signal ended the child *)
| Error (error : exn).
    (* 'error': the child could not be spawned *)

(** The host the functions run on: [process.cwd()], [path.join] and
    [child_process.spawn], which throws or returns a child that emits
    events once the executor has returned. *)
Record Host : Type := {
  cwd : completion jsstring;
  path_join : list jsstring -> jsstring;
  spawn : jsstring -> list jsstring -> completion (list event)
}.

(** What the closures of one call share: the [stdout] variable and the
    promise. *)
Record call (A : Type) : Type := {
  stdout : jsstring;
  settled : promise A
}.

Arguments stdout {A} c.
Arguments settled {A} c.

Definition resolve_with {A : Type} (a : A) (st : call A) : call A :=
  {| stdout := stdout st; settled := resolve a (settled st) |}.

(** [stdout += data.toString()] *)
Definition on_data {A : Type} (chunk : jsstring) (st : call A) : call A :=
  {| stdout := stdout st ++ chunk; settled := settled st |}.

(** The event loop delivers the events in order; an exception a listener
    lets escape is uncaught. *)
Fixpoint deliver {A : Type} (listener : event -> call A -> completion (call A))
    (events : list event) (st : call A) : completion (call A) :=
  match events with
  | [] => Normal st
  | ev :: rest => st' <- listener ev st ;; deliver listener rest st'
  end.

(** [code !== 0] *)
Definition not_zero (code : option Z) : bool :=
  match code with Some 0 => false | _ => true end.

(** ** src/lib/rag-server.ts *)

(** Lines 48-49 and 121-122: the text handed to [JSON.parse]. *)
Definition jsonString (stdout : jsstring) : jsstring :=
  let jsonStart := indexOf stdout (lit "{") in
  if 0 <=? jsonStart then substring stdout jsonStart else stdout.

(** *** queryFAISSVectorStore *)

Definition strings (l : list jsstring) : value := VArray (map VString l).

Definition unavailable_advisory : value :=
  strings [lit "RAG system temporarily unavailable. Using general medical knowledge.";
           lit "Please ensure the FAISS index is properly built from your medical documents."].

Definition parse_advisory : value :=
  strings [lit "Error processing RAG query. Please check the system configuration."].

Definition launch_advisory : value :=
  strings [lit "RAG system unavailable. Please ensure Python dependencies are installed.";
           lit "Run: pip install -r requirements.txt"].

Definition fallback_advisory : value :=
  strings [lit "RAG system error. Using fallback response."].

(** Lines 13-24: the executable and the argument vector [spawn] is called
    with. *)
Definition query_command (host : Host) (query : jsstring) (topK : Number.t)
  : completion (jsstring * list jsstring) :=
  dir <- cwd host ;;
  let pythonScriptPath := path_join host [dir; lit "lib"; lit "rag_service.py"] in
  dir' <- cwd host ;;
  let pythonExe := path_join host [dir'; lit ".venv"; lit "bin"; lit "python"] in
  Normal (pythonExe, [pythonScriptPath; query; lit "--top-k"; Number.toString topK]).

(** Lines 13-26: the child, as the events it will emit. The [stdio]
    option is the constant that pipes stdout only. *)
Definition query_process (host : Host) (query : jsstring) (topK : Number.t)
  : completion (list event) :=
  command <- query_command host query topK ;;
  spawn host (fst command) (snd command).

(** Lines 47-58: what the 'close' listener resolves with after an exit
    with code 0. The two template literals of the log lines are evaluated
    for the exception they may throw. *)
Definition query_result (stdout : jsstring) : completion value :=
  result <- JSON.parse (jsonString stdout) ;;
  error <- get result (lit "error") ;;
  if ToBoolean error then
    ToString error ;;;
    Normal (VArray [error])
  else
    chunk_count <- get result (lit "chunk_count") ;;
    ToString chunk_count ;;;
    chunks <- get result (lit "chunks") ;;
    Normal (if ToBoolean chunks then chunks else VArray []).

(** Lines 46-63: the [try] statement as a whole, the advisory of the
    [catch] clause standing in when the block throws. *)
Definition closed_with (stdout : jsstring) : value :=
  match query_result stdout with
  | Normal v => v
  | Throw _ => parse_advisory
  end.

(** Lines 34-64: the 'close' listener. *)
Definition query_on_close (code : option Z) (st : call value) : completion (call value) :=
  if not_zero code then
    Normal (resolve_with unavailable_advisory st)
  else
    try_catch
      (v <- query_result (stdout st) ;; Normal (resolve_with v st))
      (fun parseError => Normal (resolve_with parse_advisory st)).

Definition query_listener (ev : event) (st : call value) : completion (call value) :=
  match ev with
  | Data chunk => Normal (on_data chunk st)
  | Close code => query_on_close code st
  | Error error => Normal (resolve_with launch_advisory st)
  end.

(** Line 9: [topK: number = 5]. *)
Definition default_topK (topK : option Number.t) : Number.t :=
  match topK with Some k => k | None => Number.of_Z 5 end.

(** Lines 7-79. [topK] is [None] when the argument is left out. The
    result is the state of the returned promise once every event of the
    child has been delivered, or the exception a listener let escape. *)
Definition queryFAISSVectorStore (host : Host) (query : jsstring) (topK : option Number.t)
  : completion (promise value) :=
  let topK := default_topK topK in
  let st := {| stdout := []; settled := Pending |} in
  match query_process host query topK with
  | Normal events => st' <- deliver query_listener events st ;; Normal (settled st')
  | Throw error => Normal (settled (resolve_with fallback_advisory st))
  end.

(** *** checkRAGSystemStatus *)

(** The [details] of a status: the four shapes the source builds. An
    exception stands for the message the source takes from it. *)
Inductive status_details : Type :=
| details_code (code : option Z)
    (* { code } *)
| details_status (status : value)
    (* the parsed payload itself *)
| details_parseError (parseError : exn) (stdout : jsstring)
    (* { parseError: <message>, stdout } *)
| details_error (error : exn).
    (* { error: <message> } *)

Record RAGStatus : Type := {
  ready : value;
  message : jsstring;
  details : status_details
}.

(** The code of a 'close' event in a template literal. *)
Definition code_text (code : option Z) : jsstring :=
  match code with
  | Some c => Number.toString (Number.of_Z c)
  | None => lit "null"
  end.

(** Lines 91-101. *)
Definition status_process (host : Host) : completion (list event) :=
  dir <- cwd host ;;
  let pythonScriptPath := path_join host [dir; lit "lib"; lit "rag_service.py"] in
  dir' <- cwd host ;;
  let pythonExe := path_join host [dir'; lit ".venv"; lit "bin"; lit "python"] in
  spawn host pythonExe [pythonScriptPath; lit "--check-status"].

(** Lines 120-131: what the 'close' listener resolves with after an exit
    with code 0. *)
Definition status_result (stdout : jsstring) : completion RAGStatus :=
  status <- JSON.parse (jsonString stdout) ;;
  ready_ <- get status (lit "ready") ;;
  message_ <-
    (if ToBoolean ready_ then
       doc_count <- get status (lit "doc_count") ;;
       n <- ToString doc_count ;;
       Normal (lit "RAG system ready with " ++ n ++ lit " documents")
     else Normal (lit "RAG system not ready - please build FAISS index")) ;;
  Normal {| ready := ready_; message := message_; details := details_status status |}.

Definition exit_status (code : option Z) : RAGStatus :=
  {| ready := VBool false;
     message := lit "RAG system check failed (exit code " ++ code_text code ++ lit ")";
     details := details_code code |}.

Definition parse_error_status (parseError : exn) (stdout : jsstring) : RAGStatus :=
  {| ready := VBool false;
     message := lit "Error parsing RAG system status";
     details := details_parseError parseError stdout |}.

Definition launch_error_status (error : exn) : RAGStatus :=
  {| ready := VBool false;
     message := lit "Python environment not available";
     details := details_error error |}.

Definition internal_error_status (error : exn) : RAGStatus :=
  {| ready := VBool false;
     message := lit "Error checking RAG system status";
     details := details_error error |}.

(** Lines 109-139: the 'close' listener. *)
Definition status_on_close (code : option Z) (st : call RAGStatus)
  : completion (call RAGStatus) :=
  if not_zero code then
    Normal (resolve_with (exit_status code) st)
  else
    try_catch
      (s <- status_result (stdout st) ;; Normal (resolve_with s st))
      (fun parseError =>
         Normal (resolve_with (parse_error_status parseError (stdout st)) st)).

Definition status_listener (ev : event) (st : call RAGStatus) : completion (call RAGStatus) :=
  match ev with
  | Data chunk => Normal (on_data chunk st)
  | Close code => status_on_close code st
  | Error error => Normal (resolve_with (launch_error_status error) st)
  end.

(** Lines 84-157. *)
Definition checkRAGSystemStatus (host : Host) : completion (promise RAGStatus) :=
  let st := {| stdout := []; settled := Pending |} in
  match status_process host with
  | Normal events => st' <- deliver status_listener events st ;; Normal (settled st')
  | Throw error => Normal (settled (resolve_with (internal_error_status error) st))
  end.

(** ** Sample hosts and payloads *)

(** An ASCII literal in which an apostrophe stands for the quotation mark,
    to write JSON texts down. *)
Definition json_text (s : string) : jsstring :=
  map (fun c => if N.eqb c 39 then 34%N else c) (lit s).

(** A host in [/app] whose worker emits the given events whatever it is
    started with. *)
Definition worker (events : list event) : Host :=
  {| cwd := Normal (lit "/app");
     path_join := fun parts =>
       match parts with
       | [] => lit "."
       | first :: rest => first ++ List.concat (map (fun part => lit "/" ++ part) rest)
       end;
     spawn := fun _ _ => Normal events |}.

(** A host on which the Python executable is missing: the 'error' event,
    then 'close' with the negated errno. *)
Definition no_python : Host :=
  worker [Error (HostError (lit "spawn /app/.venv/bin/python ENOENT")); Close (Some (-2))].

(** A host whose worker prints a line of its own before the payload, in
    two chunks. *)
Definition chatty_worker : Host :=
  worker [Data (lit "Loading index... ");
          Data (json_text "{'chunks': ['a', 'b'], 'chunk_count': 2}");
          Close (Some 0)].

(** A host whose worker answers with the last argument it was started
    with as its only chunk. *)
Definition echo_last_argument : Host :=
  {| cwd := cwd (worker []);
     path_join := path_join (worker []);
     spawn := fun _ args =>
       Normal [Data (json_text "{'chunks': ['" ++ last args [] ++ json_text "']}");
               Close (Some 0)] |}.

(** A host whose worker reports an index of 42 documents to the
    readiness probe and answers every query with two chunks. *)
Definition ready_worker : Host :=
  {| cwd := cwd (worker []);
     path_join := path_join (worker []);
     spawn := fun _ args =>
       if jsstring_eqb (last args []) (lit "--check-status")
       then Normal [Data (json_text "{'ready': true, 'doc_count': 42}"); Close (Some 0)]
       else Normal [Data (json_text "{'chunks': ['a', 'b'], 'chunk_count': 2}");
                    Close (Some 0)] |}.

(** ** The behaviours of the worker the specification speaks of *)

Definition is_string (v : value) : bool :=
  match v with VString _ => true | _ => false end.

Definition is_number (v : value) : bool :=
  match v with VNumber _ => true | _ => false end.

Definition is_string_array (v : value) : bool :=
  match v with VArray l => forallb is_string l | _ => false end.

(** The property [name] of the object [payload] is absent or passes
    [ok]. *)
Definition field (payload : value) (name : jsstring) (ok : value -> bool) : bool :=
  match payload with
  | VObject props =>
      match own_property props name with
      | Some v => ok v
      | None => true
      end
  | _ => false
  end.

(** A payload of the retrieval mode typed as the worker response format
    has it: an object whose [error], if any, is a string, whose [chunks],
    if any, is an array of strings and whose [chunk_count], if any, is a
    number. *)
Definition well_formed_payload (payload : value) : bool :=
  field payload (lit "error") is_string
  && field payload (lit "chunks") is_string_array
  && field payload (lit "chunk_count") is_number.

(** The four behaviours of the worker on a query: it cannot be launched
    ([spawn] throws, or the child emits 'error' before anything but
    output), it exits with a code other than 0, it exits with code 0 and
    an output that is not JSON, it exits with code 0 and a well-formed
    payload. *)
Inductive worker_behaviour : completion (list event) -> Prop :=
| launch_throws (e : exn) :
    worker_behaviour (Throw e)
| launch_failure (chunks : list jsstring) (e : exn) (rest : list event) :
    worker_behaviour (Normal (map Data chunks ++ Error e :: rest))
| nonzero_exit (chunks : list jsstring) (code : option Z) (rest : list event) :
    not_zero code = true ->
    worker_behaviour (Normal (map Data chunks ++ Close code :: rest))
| unparseable_output (chunks : list jsstring) (e : exn) (rest : list event) :
    JSON.parse (jsonString (List.concat chunks)) = Throw e ->
    worker_behaviour (Normal (map Data chunks ++ Close (Some 0) :: rest))
| well_formed_output (chunks : list jsstring) (payload : value) (rest : list event) :
    JSON.parse (jsonString (List.concat chunks)) = Normal payload ->
    well_formed_payload payload = true ->
    worker_behaviour (Normal (map Data chunks ++ Close (Some 0) :: rest)).

(** The failure paths of a readiness probe, each with the status it is
    mapped to: an exception before or in [spawn], an 'error' event, an
    exit with a code other than 0, an exception in the [try] block of the
    'close' listener. *)
Inductive status_failure : completion (list event) -> RAGStatus -> Prop :=
| internal_error (e : exn) :
    status_failure (Throw e) (internal_error_status e)
| launch_error (chunks : list jsstring) (e : exn) (rest : list event) :
    status_failure (Normal (map Data chunks ++ Error e :: rest)) (launch_error_status e)
| exit_failure (chunks : list jsstring) (code : option Z) (rest : list event) :
    not_zero code = true ->
    status_failure (Normal (map Data chunks ++ Close code :: rest)) (exit_status code)
| parse_failure (chunks : list jsstring) (e : exn) (rest : list event) :
    status_result (List.concat chunks) = Throw e ->
    status_failure (Normal (map Data chunks ++ Close (Some 0) :: rest))
                   (parse_error_status e (List.concat chunks)).

(** The text is that of a number that is zero or negative: [0], or a
    text that starts with a minus sign. *)
Definition nonpositive_text (arg : jsstring) : bool :=
  jsstring_eqb arg (lit "0") || starts_with (lit "-") arg.

(** ** Awaiting a promise *)

(** What an [async] function sees of [await p]: the value the promise is
    fulfilled with, the reason it is rejected with, thrown at the [await],
    or nothing at all when the promise stays pending; the same when an
    exception escaped a listener, which ends the process. *)
Inductive async (A : Type) : Type :=
| Return (a : A)
| Raise (e : exn)
| Stuck.

Arguments Return {A} a.
Arguments Raise {A} e.
Arguments Stuck {A}.

Definition await {A : Type} (p : completion (promise A)) : async A :=
  match p with
  | Normal (Fulfilled a) => Return a
  | Normal (Rejected e) => Raise e
  | Normal Pending => Stuck
  | Throw _ => Stuck
  end.

Definition async_bind {A B : Type} (c : async A) (k : A -> async B) : async B :=
  match c with
  | Return a => k a
  | Raise e => Raise e
  | Stuck => Stuck
  end.

(** [try { body } catch (e) { handler }] around code that awaits. *)
Definition async_try {A : Type} (body : async A) (handler : exn -> async A) : async A :=
  match body with
  | Raise e => handler e
  | _ => body
  end.

Definition now_or_throw {A : Type} (c : completion A) : async A :=
  match c with
  | Normal a => Return a
  | Throw e => Raise e
  end.

Notation "x <~ c ;; k" := (async_bind c (fun x => k))
  (at level 61, c at next level, right associativity) : js_scope.

(** ** src/app/api/ragchatgemini/route.ts *)

(** [v.length] for a value: the number of elements of an array, of code
    units of a string, the own property of an object. *)
Definition get_length (v : value) : completion value :=
  match v with
  | VUndefined | VNull => Throw (TypeError_property_of_nullish (lit "length"))
  | VArray elements => Normal (VNumber (Number.of_Z (Z.of_nat (List.length elements))))
  | VString s => Normal (VNumber (Number.of_Z (Z.of_nat (List.length s))))
  | VObject props =>
      match own_property props (lit "length") with
      | Some w => Normal w
      | None => Normal VUndefined
      end
  | _ => Normal VUndefined
  end.

(** [Array.isArray(v)] *)
Definition isArray (v : value) : bool :=
  match v with VArray _ => true | _ => false end.

(** Line 47: the query sent to the worker. *)
Definition rag_query (reportData userQuestion : value) : completion jsstring :=
  report <- ToString reportData ;;
  question <- ToString userQuestion ;;
  Normal (lit "Patient medical context: " ++ report ++ [10%N] ++
          lit "User question: " ++ question ++ [10%N] ++
          lit "Find relevant medical information:").

Definition not_retrieved : value :=
  strings [lit "Could not retrieve medical references from RAG system"].

(** Lines 56-60. *)
Definition not_ready_retrievals (ragStatus : RAGStatus) : value :=
  strings [lit "RAG system status: " ++ message ragStatus;
           lit "Using general medical knowledge for this query";
           lit "To enable full RAG capabilities, please build the FAISS index using your medical documents"].

(** Lines 38-64 of POST: the status and the retrievals the prompt is
    built from. [reportData] and [userQuestion] are what lines 31-32 took
    from the request body. *)
Definition rag_retrievals (host : Host) (reportData userQuestion : value)
  : async (RAGStatus * value) :=
  ragStatus <~ await (checkRAGSystemStatus host) ;;
  retrievals <~
    (if ToBoolean (ready ragStatus) then
       async_try
         (query <~ now_or_throw (rag_query reportData userQuestion) ;;
          retrievals <~ await (queryFAISSVectorStore host query (Some (Number.of_Z 5))) ;;
          logged <~ now_or_throw (n <- get_length retrievals ;; ToString n) ;;
          Return retrievals)
         (fun error => Return not_retrieved)
     else Return (not_ready_retrievals ragStatus)) ;;
  Return (ragStatus, if isArray retrievals then retrievals else VArray [retrievals]).

(** *** The stream of the chat routes

    Lines 104-108 of ragchatgemini/route.ts and lines 95-99 of
    medichatgemini/route.ts are the same code. *)

(** [s.replace(/c/g, by)] for a single character [c] and a replacement
    without dollar signs. *)
Definition replace_all (c : N) (by_ : jsstring) (s : jsstring) : jsstring :=
  flat_map (fun d => if N.eqb d c then by_ else [d]) s.

(** Line 105: three replacements one after the other, of every reverse
    solidus by two of them, of every quotation mark by a reverse solidus
    and a quotation mark, of every line feed by a reverse solidus and the
    letter n. *)
Definition escape_text (text : jsstring) : jsstring :=
  replace_all 10 [92; 110]%N (replace_all 34 [92; 34]%N (replace_all 92 [92; 92]%N text)).

(** What the three replacements make of one character. *)
Definition escape_character (c : N) : jsstring :=
  if N.eqb c 92 then [92; 92]%N
  else if N.eqb c 34 then [92; 34]%N
  else if N.eqb c 10 then [92; 110]%N
  else [c].

(** The first line: the digit 0, a colon and the escaped text between
    quotation marks. *)
Definition text_line (text : jsstring) : jsstring :=
  lit "0:" ++ [34%N] ++ escape_text text ++ [34%N].

Definition finish_line : jsstring :=
  json_text "d:{'finishReason':'stop','usage':{'promptTokens':0,'completionTokens':0}}".

Definition stream_lines (text : jsstring) : list jsstring :=
  [text_line text; finish_line; []].

(** The strings handed to [encoder.encode], in the order they are
    enqueued. *)
Definition stream_chunks (text : jsstring) : list jsstring :=
  map (fun line => line ++ [10%N]) (stream_lines text).

(** ** The status route (src/app/api/medichatgemini/route.ts, lines 129-152) *)

(** The two objects [Response.json] is given. An exception stands for its
    message. *)
Inductive status_reply : Type :=
| reply_ok (ragSystem : RAGStatus) (timestamp : jsstring)
    (* status 200: { success: true, ragSystem, timestamp } *)
| reply_error (error : exn) (timestamp : jsstring).
    (* status 500: { success: false, error: <message>,
       ragSystem: { ready: false, message: "Error checking RAG system" }, timestamp } *)

Definition http_status (reply : status_reply) : Z :=
  match reply with
  | reply_ok _ _ => 200
  | reply_error _ _ => 500
  end.

(** GET; [now] is [new Date().toISOString()] when the reply is built. *)
Definition GET (host : Host) (now : jsstring) : async status_reply :=
  async_try
    (status <~ await (checkRAGSystemStatus host) ;; Return (reply_ok status now))
    (fun error => Return (reply_error error now)).

(** ** The image route (src/unnamed/part_001) *)

(** [s.split(c)] for a single character [c]. *)
Fixpoint split (c : N) (s : jsstring) : list jsstring :=
  match s with
  | [] => [[]]
  | d :: s' =>
      if N.eqb d c then [] :: split c s'
      else match split c s' with
           | first :: rest => (d :: first) :: rest
           | [] => [[d]]
           end
  end.

(** The characters a dot of a regular expression does not match. *)
Definition is_line_terminator (c : N) : bool :=
  N.eqb c 10 || N.eqb c 13 || N.eqb c 8232 || N.eqb c 8233.

(** [(.*?);] at the head of [s]: the shortest run of characters other
    than line terminators that a semicolon follows. *)
Fixpoint lazy_until_semicolon (s : jsstring) : option jsstring :=
  match s with
  | [] => None
  | c :: s' =>
      if N.eqb c 59 then Some []
      else if is_line_terminator c then None
      else option_map (cons c) (lazy_until_semicolon s')
  end.

(** [s.match(/:(.*?);/)?.[1]]: the first group of the leftmost match. *)
Fixpoint match_mime (s : jsstring) : option jsstring :=
  match s with
  | [] => None
  | c :: s' =>
      if N.eqb c 58 then
        match lazy_until_semicolon s' with
        | Some group => Some group
        | None => match_mime s'
        end
      else match_mime s'
  end.

(** How lines 31-45 end. *)
Inductive image_check : Type :=
| Image (mimeType data : jsstring)
    (* the checks pass *)
| Refused (message : jsstring)
    (* throw new Error(message) *)
| NotAFunction.
    (* TypeError: base64.startsWith is not a function *)

Definition truthy_string (s : jsstring) : bool :=
  match s with [] => false | _ => true end.

(** Lines 31-45 of POST, [base64] being the property of that name of the
    request body. *)
Definition check_image (base64 : value) : image_check :=
  if negb (ToBoolean base64) then Refused (lit "Invalid or missing base64 image data.")
  else
    match base64 with
    | VString s =>
        if negb (starts_with (lit "data:") s)
        then Refused (lit "Invalid or missing base64 image data.")
        else
          let parts := split 44 s in
          let header := hd [] parts in
          match nth_error parts 1 with
          | Some data =>
              if negb (truthy_string header) || negb (truthy_string data)
              then Refused (lit "Malformed base64 data.")
              else
                match match_mime header with
                | Some mimeType =>
                    if negb (truthy_string mimeType) || negb (starts_with (lit "image/") mimeType)
                    then Refused (lit "Only image MIME types are supported (e.g., image/jpeg, image/png)")
                    else Image mimeType data
                | None =>
                    Refused (lit "Only image MIME types are supported (e.g., image/jpeg, image/png)")
                end
          | None => Refused (lit "Malformed base64 data.")
          end
    | _ => NotAFunction
    end.

(** The conversion of [v] to a string does not throw: [v] is no object
    with a toString property of its own and no array that holds one,
    directly or in nested arrays. *)
Fixpoint printable (v : value) : bool :=
  match v with
  | VArray elements =>
      (fix all (l : list value) : bool :=
         match l with
         | [] => true
         | x :: rest => printable x && all rest
         end) elements
  | VObject props =>
      match own_property props (lit "toString") with
      | Some _ => false
      | None => true
      end
  | _ => true
  end.

(** * Properties *)

Lemma jsstring_eqb_eq (a b : jsstring) : jsstring_eqb a b = true <-> a = b.
Proof.
  unfold jsstring_eqb. destruct (list_eq_dec N.eq_dec a b); split; congruence.
Qed.

(** ** The runtime on sample values *)

Example toString_samples :
  map Number.toString
      [Number.of_Z 5; Number.of_Z 0; Number.of_Z (-3); Number.of_Z 9007199254740993;
       Number.of_decimal false 1 (-1); Number.of_decimal false 435 (-2);
       Number.of_decimal false 1 21; Number.of_decimal false 1 (-7);
       Number.of_decimal false 123456 (-3); Number.of_decimal true 0 0] =
  [lit "5"; lit "0"; lit "-3"; lit "9007199254740992";
   lit "0.1"; lit "4.35"; lit "1e+21"; lit "1e-7"; lit "123.456"; lit "0"].
Proof. vm_compute. reflexivity. Qed.

Example parse_samples :
  JSON.parse (json_text " { 'k' : [1, true, null], 'k' : 'last' , 'u' : '\u0041\n' } ") =
    Normal (VObject [(lit "k", VString (lit "last")); (lit "u", VString [65; 10]%N)]) /\
  JSON.parse (json_text "[1, 2,]") = Throw (SyntaxError (json_text "[1, 2,]")) /\
  JSON.parse (lit "") = Throw (SyntaxError []) /\
  JSON.parse (lit " 0.5e1 ") = Normal (VNumber (Number.of_Z 5)).
Proof. repeat split; vm_compute; reflexivity. Qed.

Example ToString_samples :
  ToString (VArray [VNumber (Number.of_Z 1); VNull; VArray [VString (lit "x"); VBool true];
                    VObject []]) = Normal (lit "1,,x,true,[object Object]") /\
  ToString (VObject [(lit "toString", VNull)]) = Throw TypeError_to_primitive /\
  ToString VUndefined = Normal (lit "undefined").
Proof. repeat split; vm_compute; reflexivity. Qed.

(** ToString throws on the values that are not printable, and on no
    others. *)
Lemma ToString_printable (v : value) :
  printable v = true <-> exists s, ToString v = Normal s.
Proof.
  revert v. fix IH 1. intro v.
  destruct v as [| |b|x|s|elements|props]; try (split; [intros _; eexists; reflexivity | reflexivity]).
  - cbn [printable ToString].
    induction elements as [|x rest IHrest]; [split; [intros _; now exists [] | reflexivity]|].
    assert (Hx : printable x = true <->
                 exists s, match x with
                           | VUndefined | VNull => Normal []
                           | _ => ToString x
                           end = Normal s).
    { destruct (IH x) as [H1 H2]. split.
      - intro H. destruct x; try (now apply H1); now exists [].
      - intro H. destruct x; try (now apply H2); reflexivity. }
    split.
    + intro H. apply andb_prop in H as [Hhead Hrest].
      apply Hx in Hhead as [s Hs]. rewrite Hs. cbn [bind].
      apply IHrest in Hrest as [r Hr].
      destruct rest as [|y rest']; [now exists s|].
      rewrite Hr. eexists. reflexivity.
    + intros [s Hs]. apply andb_true_intro.
      destruct (match x with
                | VUndefined | VNull => Normal []
                | _ => ToString x
                end) as [t|e] eqn:Ht; [|discriminate].
      split; [apply Hx; now exists t|]. cbn [bind] in Hs.
      apply IHrest. destruct rest as [|y rest']; [now exists []|].
      match type of Hs with
      | bind ?c _ = _ => destruct c as [r|e]; [now exists r | discriminate]
      end.
  - cbn [printable ToString].
    destruct (own_property props (lit "toString")); split;
      try discriminate; try (intros [s H]; discriminate); [intros _; eexists; reflexivity | reflexivity].
Qed.

(** ** JSON.parse has fuel enough *)

Lemma skip_whitespace_length (s : jsstring) :
  (List.length (JSON.skip_whitespace s) <= List.length s)%nat.
Proof.
  induction s as [|c s IH]; simpl; [lia|].
  destruct (JSON.is_whitespace c); simpl; lia.
Qed.

Lemma skip_whitespace_cons (s r : jsstring) (c : N) :
  JSON.skip_whitespace s = c :: r -> (List.length r < List.length s)%nat.
Proof.
  intro H. pose proof (skip_whitespace_length s) as Hlen. rewrite H in Hlen. simpl in Hlen. lia.
Qed.

Lemma string_characters_length (n : nat) :
  forall s acc str r,
    (List.length s <= n)%nat ->
    JSON.string_characters s acc = Some (str, r) -> (List.length r < List.length s)%nat.
Proof.
  induction n as [|n IH]; intros s acc str r Hn H.
  - destruct s; [discriminate | simpl in Hn; lia].
  - destruct s as [|c s]; [discriminate|]. simpl in Hn. cbn [JSON.string_characters] in H.
    destruct (c =? 34)%N.
    + injection H as _ <-. simpl. lia.
    + destruct (c =? 92)%N.
      * destruct s as [|e s]; [discriminate|].
        assert (Hshort : forall u, JSON.string_characters s (u :: acc) = Some (str, r) ->
                                   (List.length r < List.length (c :: e :: s))%nat).
        { intros u Hu. apply IH in Hu; simpl in *; lia. }
        destruct (N.eq_dec e 117) as [->|He].
        -- destruct s as [|h1 [|h2 [|h3 [|h4 s']]]];
             try (destruct (JSON.escape 117); [eapply Hshort; eassumption | discriminate]).
           destruct (JSON.hex4 h1 h2 h3 h4); [|discriminate].
           apply IH in H; simpl in *; lia.
        -- assert (He' : match JSON.escape e with
                         | Some u => JSON.string_characters s (u :: acc)
                         | None => None
                         end = Some (str, r)).
           { destruct e as [|p]; [exact H|].
             do 7 (destruct p as [p|p|]; try exact H). contradiction. }
           destruct (JSON.escape e); [eapply Hshort; eassumption | discriminate].
      * destruct (c <? 32)%N; [discriminate|].
        apply IH in H; simpl in *; lia.
Qed.

Lemma digits_length (s : jsstring) :
  forall count acc count' acc' r,
    JSON.digits s count acc = (count', acc', r) -> (List.length r <= List.length s)%nat.
Proof.
  induction s as [|c s IH]; intros count acc count' acc' r H; simpl in H.
  - injection H as _ _ <-. simpl. lia.
  - destruct (JSON.is_digit c).
    + apply IH in H. simpl. lia.
    + injection H as _ _ <-. lia.
Qed.

Lemma integer_part_length (s r : jsstring) (m : N) :
  JSON.integer_part s = Some (m, r) -> (List.length r < List.length s)%nat.
Proof.
  unfold JSON.integer_part. destruct s as [|c s]; [discriminate|].
  assert (Hdigits : (if JSON.is_digit c
                     then let '(_, m, s') := JSON.digits (c :: s) 0 0 in Some (m, s')
                     else None) = Some (m, r) ->
                    (List.length r < List.length (c :: s))%nat).
  { destruct (JSON.is_digit c) eqn:Hc; [|discriminate].
    cbn [JSON.digits]. rewrite Hc.
    destruct (JSON.digits s (0 + 1) (0 * 10 + (c - 48))) as [[count m'] s'] eqn:Hd.
    intro H. injection H as _ <-. apply digits_length in Hd. simpl. lia. }
  destruct c as [|p]; [exact Hdigits|].
  do 6 (destruct p as [p|p|]; try exact Hdigits).
  intro H. injection H as _ <-. simpl. lia.
Qed.

Lemma fraction_part_length (s r : jsstring) (m scale m' : N) :
  JSON.fraction_part m s = Some (scale, m', r) -> (List.length r <= List.length s)%nat.
Proof.
  unfold JSON.fraction_part. destruct s as [|c s].
  - intro H. injection H as _ _ <-. lia.
  - assert (Hsame : Some (0%N, m, c :: s) = Some (scale, m', r) ->
                    (List.length r <= List.length (c :: s))%nat).
    { intro H. injection H as _ _ <-. lia. }
    destruct c as [|p]; [exact Hsame|].
    do 6 (destruct p as [p|p|]; try exact Hsame).
    destruct (JSON.digits s 0 m) as [[count m''] s'] eqn:Hd.
    destruct (count =? 0)%N; [discriminate|].
    intro H. injection H as _ _ <-. apply digits_length in Hd. simpl. lia.
Qed.

Lemma exponent_part_length (s r : jsstring) (e : Z) :
  JSON.exponent_part s = Some (e, r) -> (List.length r <= List.length s)%nat.
Proof.
  unfold JSON.exponent_part. destruct s as [|c s].
  - intro H. injection H as _ <-. lia.
  - destruct ((c =? 101) || (c =? 69))%N.
    + destruct (match s with
                | 45%N :: t => (true, t)
                | 43%N :: t => (false, t)
                | _ => (false, s)
                end) as [minus t] eqn:Hsign.
      assert (Ht : (List.length t <= List.length s)%nat).
      { destruct s as [|d s]; [injection Hsign as _ <-; simpl; lia|].
        assert (Hsame : (false, d :: s) = (minus, t) ->
                        (List.length t <= List.length (d :: s))%nat)
          by (intro H; injection H as _ <-; lia).
        destruct d as [|p]; [exact (Hsame Hsign)|].
        do 6 (destruct p as [p|p|]; try exact (Hsame Hsign));
          injection Hsign as _ <-; simpl; lia. }
      destruct (JSON.digits t 0 0) as [[count e'] s'] eqn:Hd.
      destruct (count =? 0)%N; [discriminate|].
      intro H. injection H as _ <-. apply digits_length in Hd. simpl. lia.
    + intro H. injection H as _ <-. lia.
Qed.

Lemma number_length (s r : jsstring) (x : Number.t) :
  JSON.number s = Some (x, r) -> (List.length r < List.length s)%nat.
Proof.
  unfold JSON.number.
  destruct (match s with
            | 45%N :: s' => (true, s')
            | _ => (false, s)
            end) as [neg s1] eqn:Hsign.
  assert (Hs1 : (List.length s1 <= List.length s)%nat).
  { destruct s as [|c s]; [injection Hsign as _ <-; simpl; lia|].
    assert (Hsame : (false, c :: s) = (neg, s1) ->
                    (List.length s1 <= List.length (c :: s))%nat)
      by (intro H; injection H as _ <-; lia).
    destruct c as [|p]; [exact (Hsame Hsign)|].
    do 6 (destruct p as [p|p|]; try exact (Hsame Hsign));
      injection Hsign as _ <-; simpl; lia. }
  destruct (JSON.integer_part s1) as [[m s2]|] eqn:Hint; [|discriminate].
  destruct (JSON.fraction_part m s2) as [[[scale m'] s3]|] eqn:Hfrac; [|discriminate].
  destruct (JSON.exponent_part s3) as [[e s4]|] eqn:Hexp; [|discriminate].
  intro H. injection H as _ <-.
  apply integer_part_length in Hint. apply fraction_part_length in Hfrac.
  apply exponent_part_length in Hexp. lia.
Qed.

Lemma expect_length (c : N) (s r : jsstring) :
  JSON.expect c s = Some r -> (List.length r < List.length s)%nat.
Proof.
  unfold JSON.expect. destruct (JSON.skip_whitespace s) as [|d t] eqn:Hs; [discriminate|].
  apply skip_whitespace_cons in Hs.
  destruct (d =? c)%N; [|discriminate]. intro H. injection H as <-. assumption.
Qed.

(** Whatever a parser returns, it has read at least one character. *)
Lemma parser_length (fuel : nat) :
  (forall s v r, JSON.value_ fuel s = Some (v, r) ->
                 (List.length r < List.length s)%nat) /\
  (forall s acc v r, JSON.elements fuel s acc = Some (v, r) ->
                     (List.length r < List.length s)%nat) /\
  (forall s acc v r, JSON.members fuel s acc = Some (v, r) ->
                     (List.length r < List.length s)%nat).
Proof.
  induction fuel as [|fuel [IHv [IHe IHm]]]; [repeat split; intros; discriminate|].
  repeat split.
  - intros s v r H. cbn [JSON.value_] in H.
    destruct (JSON.skip_whitespace s) as [|c t] eqn:Hs; [discriminate|].
    apply skip_whitespace_cons in Hs.
    destruct (c =? 123)%N.
    { destruct (JSON.expect 125 t) as [t'|] eqn:Ht.
      - injection H as _ <-. apply expect_length in Ht. lia.
      - apply IHm in H. lia. }
    destruct (c =? 91)%N.
    { destruct (JSON.expect 93 t) as [t'|] eqn:Ht.
      - injection H as _ <-. apply expect_length in Ht. lia.
      - apply IHe in H. lia. }
    destruct (c =? 34)%N.
    { destruct (JSON.string_characters t []) as [[str t']|] eqn:Ht; [|discriminate].
      injection H as _ <-. apply (string_characters_length _ _ _ _ _ (le_n _)) in Ht. lia. }
    assert (Hskip : forall n, (List.length (skipn (S n) (c :: t)) < List.length s)%nat).
    { intro n. rewrite length_skipn. simpl. lia. }
    destruct (starts_with (lit "true") (c :: t)); [injection H as _ <-; exact (Hskip 3%nat)|].
    destruct (starts_with (lit "false") (c :: t)); [injection H as _ <-; exact (Hskip 4%nat)|].
    destruct (starts_with (lit "null") (c :: t)); [injection H as _ <-; exact (Hskip 3%nat)|].
    destruct (JSON.number (c :: t)) as [[x t']|] eqn:Ht; [|discriminate].
    injection H as _ <-. apply number_length in Ht. simpl in Ht. lia.
  - intros s acc v r H. cbn [JSON.elements] in H.
    destruct (JSON.value_ fuel s) as [[w t]|] eqn:Hw; [|discriminate].
    apply IHv in Hw.
    destruct (JSON.expect 44 t) as [t'|] eqn:Ht.
    + apply expect_length in Ht. apply IHe in H. lia.
    + destruct (JSON.expect 93 t) as [t'|] eqn:Ht'; [|discriminate].
      injection H as _ <-. apply expect_length in Ht'. lia.
  - intros s acc v r H. cbn [JSON.members] in H.
    destruct (JSON.expect 34 s) as [t|] eqn:Hq; [|discriminate].
    apply expect_length in Hq.
    destruct (JSON.string_characters t []) as [[key t1]|] eqn:Hkey; [|discriminate].
    apply (string_characters_length _ _ _ _ _ (le_n _)) in Hkey.
    destruct (JSON.expect 58 t1) as [t2|] eqn:Hcolon; [|discriminate].
    apply expect_length in Hcolon.
    destruct (JSON.value_ fuel t2) as [[w t3]|] eqn:Hw; [|discriminate].
    apply IHv in Hw.
    destruct (JSON.expect 44 t3) as [t4|] eqn:Ht.
    + apply expect_length in Ht. apply IHm in H. lia.
    + destruct (JSON.expect 125 t3) as [t4|] eqn:Ht'; [|discriminate].
      injection H as _ <-. apply expect_length in Ht'. lia.
Qed.

(** From [2 * length s + 1] units on for a value, and one more for
    elements and members, more fuel changes nothing. *)
Lemma parser_fuel (fuel : nat) :
  (forall s more, (2 * List.length s + 1 <= fuel)%nat -> (fuel <= more)%nat ->
                  JSON.value_ more s = JSON.value_ fuel s) /\
  (forall s acc more, (2 * List.length s + 2 <= fuel)%nat -> (fuel <= more)%nat ->
                      JSON.elements more s acc = JSON.elements fuel s acc) /\
  (forall s acc more, (2 * List.length s + 2 <= fuel)%nat -> (fuel <= more)%nat ->
                      JSON.members more s acc = JSON.members fuel s acc).
Proof.
  induction fuel as [|fuel [IHv [IHe IHm]]]; [repeat split; intros; lia|].
  destruct (parser_length fuel) as [Lv _].
  repeat split.
  - intros s [|more] Hfuel Hmore; [lia|]. cbn [JSON.value_].
    destruct (JSON.skip_whitespace s) as [|c t] eqn:Hs; [reflexivity|].
    apply skip_whitespace_cons in Hs.
    destruct (c =? 123)%N.
    { destruct (JSON.expect 125 t); [reflexivity | apply IHm; lia]. }
    destruct (c =? 91)%N.
    { destruct (JSON.expect 93 t); [reflexivity | apply IHe; lia]. }
    reflexivity.
  - intros s acc [|more] Hfuel Hmore; [lia|]. cbn [JSON.elements].
    rewrite (IHv s more) by lia.
    destruct (JSON.value_ fuel s) as [[w t]|] eqn:Hw; [|reflexivity].
    apply Lv in Hw.
    destruct (JSON.expect 44 t) as [t'|] eqn:Ht; [|reflexivity].
    apply expect_length in Ht. apply IHe; lia.
  - intros s acc [|more] Hfuel Hmore; [lia|]. cbn [JSON.members].
    destruct (JSON.expect 34 s) as [t|] eqn:Hq; [|reflexivity].
    apply expect_length in Hq.
    destruct (JSON.string_characters t []) as [[key t1]|] eqn:Hkey; [|reflexivity].
    apply (string_characters_length _ _ _ _ _ (le_n _)) in Hkey.
    destruct (JSON.expect 58 t1) as [t2|] eqn:Hcolon; [|reflexivity].
    apply expect_length in Hcolon.
    rewrite (IHv t2 more) by lia.
    destruct (JSON.value_ fuel t2) as [[w t3]|] eqn:Hw; [|reflexivity].
    apply Lv in Hw.
    destruct (JSON.expect 44 t3) as [t4|] eqn:Ht; [|reflexivity].
    apply expect_length in Ht. apply IHm; lia.
Qed.

(** The fuel [JSON.parse] gives is enough: with more of it, as much as one
    likes, the text reads the same. A SyntaxError is never for lack of
    fuel. *)
Lemma parse_fuel_is_enough (text : jsstring) (more : nat) :
  (2 * List.length text + 1 <= more)%nat ->
  JSON.value_ more text = JSON.value_ (2 * List.length text + 1) text.
Proof.
  intro H. now apply (proj1 (parser_fuel (2 * List.length text + 1))).
Qed.

(** ** The text handed to JSON.parse *)

Lemma indexOf_from_skip (pre rest : jsstring) (c : N) (i : Z) :
  ~ In c pre ->
  indexOf_from (pre ++ c :: rest) [c] i = i + Z.of_nat (List.length pre).
Proof.
  revert i. induction pre as [|a pre IH]; intros i Hnot; simpl.
  - rewrite N.eqb_refl. simpl. lia.
  - destruct (N.eqb_spec c a) as [->|Hne].
    + exfalso. apply Hnot. now left.
    + simpl. rewrite IH by (intro H; apply Hnot; now right). lia.
Qed.

Lemma indexOf_from_absent (s : jsstring) (c : N) (i : Z) :
  ~ In c s -> indexOf_from s [c] i = -1.
Proof.
  revert i. induction s as [|a s IH]; intros i Hnot; simpl; [reflexivity|].
  destruct (N.eqb_spec c a) as [->|Hne].
  - exfalso. apply Hnot. now left.
  - simpl. apply IH. intro H. apply Hnot. now right.
Qed.

Lemma jsonString_skips (pre rest : jsstring) :
  ~ In 123%N pre -> jsonString (pre ++ 123%N :: rest) = 123%N :: rest.
Proof.
  intro Hnot. unfold jsonString, indexOf.
  change (lit "{") with [123%N].
  rewrite indexOf_from_skip by assumption.
  replace (0 <=? 0 + Z.of_nat (List.length pre)) with true by (symmetry; apply Z.leb_le; lia).
  unfold substring.
  replace (Z.to_nat (Z.max 0 (0 + Z.of_nat (List.length pre)))) with (List.length pre) by lia.
  rewrite skipn_app, skipn_all, Nat.sub_diag. reflexivity.
Qed.

Lemma jsonString_without_brace (s : jsstring) :
  ~ In 123%N s -> jsonString s = s.
Proof.
  intro Hnot. unfold jsonString, indexOf.
  change (lit "{") with [123%N].
  now rewrite indexOf_from_absent.
Qed.

(** ** Delivering events to listeners that only append output and
    resolve *)

Lemma resolve_fulfilled {A : Type} (a b : A) (p : promise A) :
  p = Fulfilled a -> resolve b p = Fulfilled a.
Proof. now intros ->. Qed.

Lemma resolve_rejected {A : Type} (b : A) (p : promise A) (e : exn) :
  resolve b p = Rejected e -> p = Rejected e.
Proof. destruct p; simpl; congruence. Qed.

Section Delivery.

Context {A : Type}.
Variable listener : event -> call A -> completion (call A).

Hypothesis listener_data :
  forall chunk st, listener (Data chunk) st = Normal (on_data chunk st).

Hypothesis listener_resolves :
  forall ev st, exists st',
    listener ev st = Normal st' /\
    (settled st' = settled st \/ exists a, settled st' = resolve a (settled st)).

Lemma deliver_data (chunks : list jsstring) (rest : list event) (st : call A) :
  deliver listener (map Data chunks ++ rest) st =
  deliver listener rest
    {| stdout := stdout st ++ List.concat chunks; settled := settled st |}.
Proof.
  revert st. induction chunks as [|chunk chunks IH]; intro st; simpl.
  - rewrite app_nil_r. now destruct st.
  - rewrite listener_data. simpl. rewrite IH. simpl. now rewrite app_assoc.
Qed.

Lemma deliver_returns (events : list event) (st : call A) :
  exists st',
    deliver listener events st = Normal st' /\
    (forall a, settled st = Fulfilled a -> settled st' = Fulfilled a) /\
    (forall e, settled st' = Rejected e -> settled st = Rejected e).
Proof.
  revert st. induction events as [|ev events IH]; intro st; simpl.
  - exists st. repeat split; auto.
  - destruct (listener_resolves ev st) as [st1 [Hstep Hsettled]].
    rewrite Hstep. simpl.
    destruct (IH st1) as [st' [Hrun [Hkeep Hrej]]].
    exists st'. split; [assumption|]. split.
    + intros a Ha. apply Hkeep.
      destruct Hsettled as [-> | [b ->]]; [assumption | now apply resolve_fulfilled].
    + intros e He. specialize (Hrej e He).
      destruct Hsettled as [Heq | [b Heq]]; rewrite Heq in Hrej;
        [assumption | now apply resolve_rejected in Hrej].
Qed.

(** Once a listener has fulfilled the promise, the events that follow
    leave it as it is. *)
Lemma deliver_fulfilled (events : list event) (st : call A) (a : A) :
  settled st = Fulfilled a ->
  exists st', deliver listener events st = Normal st' /\ settled st' = Fulfilled a.
Proof.
  intro Ha. destruct (deliver_returns events st) as [st' [Hrun [Hkeep _]]].
  exists st'. split; [assumption | now apply Hkeep].
Qed.

End Delivery.

(** ** The listeners of queryFAISSVectorStore *)

Lemma query_on_close_nonzero (code : option Z) (st : call value) :
  not_zero code = true ->
  query_on_close code st = Normal (resolve_with unavailable_advisory st).
Proof. intro H. unfold query_on_close. now rewrite H. Qed.

Lemma query_on_close_zero (st : call value) :
  query_on_close (Some 0) st = Normal (resolve_with (closed_with (stdout st)) st).
Proof.
  unfold query_on_close, closed_with. simpl not_zero. cbv iota.
  now destruct (query_result (stdout st)).
Qed.

Lemma query_listener_resolves (ev : event) (st : call value) :
  exists st',
    query_listener ev st = Normal st' /\
    (settled st' = settled st \/ exists a, settled st' = resolve a (settled st)).
Proof.
  destruct ev as [chunk | code | error]; simpl.
  - eexists. split; [reflexivity | now left].
  - destruct (not_zero code) eqn:Hcode.
    + rewrite query_on_close_nonzero by assumption.
      eexists. split; [reflexivity | right; eexists; reflexivity].
    + destruct code as [[| |]|]; try discriminate.
      rewrite query_on_close_zero.
      eexists. split; [reflexivity | right; eexists; reflexivity].
  - eexists. split; [reflexivity | right; eexists; reflexivity].
Qed.

Lemma query_listener_data (chunk : jsstring) (st : call value) :
  query_listener (Data chunk) st = Normal (on_data chunk st).
Proof. reflexivity. Qed.

(** The event that settles the promise is the first one that is not
    output. *)
Lemma query_settles (host : Host) (query : jsstring) (topK : option Number.t)
    (chunks : list jsstring) (ev : event) (rest : list event) (st' : call value) (v : value) :
  query_process host query (default_topK topK) = Normal (map Data chunks ++ ev :: rest) ->
  query_listener ev {| stdout := List.concat chunks; settled := Pending |} = Normal st' ->
  settled st' = Fulfilled v ->
  queryFAISSVectorStore host query topK = Normal (Fulfilled v).
Proof.
  intros Hprocess Hev Hv. unfold queryFAISSVectorStore. cbv zeta. rewrite Hprocess.
  rewrite (deliver_data query_listener query_listener_data). simpl deliver.
  simpl app. rewrite Hev. simpl bind.
  destruct (deliver_fulfilled query_listener query_listener_resolves rest st' v Hv)
    as [st'' [Hrun Hkeep]].
  rewrite Hrun. simpl. now rewrite Hkeep.
Qed.

Lemma query_closed (host : Host) (query : jsstring) (topK : option Number.t)
    (chunks : list jsstring) (code : option Z) (rest : list event) :
  query_process host query (default_topK topK) = Normal (map Data chunks ++ Close code :: rest) ->
  queryFAISSVectorStore host query topK =
  Normal (Fulfilled (if not_zero code then unavailable_advisory
                     else closed_with (List.concat chunks))).
Proof.
  intro Hprocess. destruct (not_zero code) eqn:Hcode.
  - eapply query_settles;
      [eassumption | simpl; now rewrite query_on_close_nonzero | reflexivity].
  - destruct code as [[| |]|]; try discriminate.
    eapply query_settles;
      [eassumption | simpl; now rewrite query_on_close_zero | reflexivity].
Qed.

Lemma is_string_array_strings (v : value) :
  is_string_array v = true -> exists l, v = strings l.
Proof.
  destruct v as [| | | | |elements|]; try discriminate. simpl.
  induction elements as [|x elements IH]; intro H.
  - now exists [].
  - simpl in H. apply andb_prop in H as [Hx Hrest].
    destruct x; try discriminate.
    destruct (IH Hrest) as [l Hl]. injection Hl as Hl.
    exists (s :: l). unfold strings. simpl. now rewrite Hl.
Qed.

Lemma closed_with_well_formed (stdout : jsstring) (payload : value) :
  JSON.parse (jsonString stdout) = Normal payload ->
  well_formed_payload payload = true ->
  exists l, closed_with stdout = strings l.
Proof.
  intros Hparse Hwf. unfold closed_with, query_result. rewrite Hparse.
  unfold well_formed_payload, field in Hwf.
  destruct payload as [| | | | | |props]; try discriminate.
  apply andb_prop in Hwf as [Hwf Hcount]. apply andb_prop in Hwf as [Herror Hchunks].
  cbn [bind get].
  assert (Hrest :
    exists l,
      match
        (chunk_count <- match own_property props (lit "chunk_count") with
                        | Some w => Normal w
                        | None => Normal VUndefined
                        end ;;
         ToString chunk_count ;;;
         chunks <- match own_property props (lit "chunks") with
                   | Some w => Normal w
                   | None => Normal VUndefined
                   end ;;
         Normal (if ToBoolean chunks then chunks else VArray []))
      with
      | Normal v => v
      | Throw _ => parse_advisory
      end = strings l).
  { destruct (own_property props (lit "chunk_count")) as [count|].
    - destruct count; try discriminate. cbn [bind ToString].
      destruct (own_property props (lit "chunks")) as [chunks|].
      + destruct (is_string_array_strings chunks Hchunks) as [l ->].
        exists l. reflexivity.
      + now exists [].
    - cbn [bind ToString].
      destruct (own_property props (lit "chunks")) as [chunks|].
      + destruct (is_string_array_strings chunks Hchunks) as [l ->].
        exists l. reflexivity.
      + now exists []. }
  destruct (own_property props (lit "error")) as [error|]; cbn [bind].
  - destruct error; try discriminate. destruct s as [|c s].
    + exact Hrest.
    + exists [c :: s]. reflexivity.
  - exact Hrest.
Qed.

(** C1. queryFAISSVectorStore never throws and never rejects, whatever
    the query, topK and the host do; and when the worker cannot be
    launched, exits with a code other than 0, prints what is not JSON or
    prints a well-formed payload, the promise is fulfilled with a list of
    strings. *)
Theorem retrieve_never_throws_nor_rejects
    (host : Host) (query : jsstring) (topK : option Number.t) :
  exists p,
    queryFAISSVectorStore host query topK = Normal p /\
    (forall e, p <> Rejected e) /\
    (worker_behaviour (query_process host query (default_topK topK)) ->
     exists l, p = Fulfilled (strings l)).
Proof.
  destruct (query_process host query (default_topK topK)) as [events|error] eqn:Hprocess.
  - destruct (deliver_returns query_listener query_listener_resolves events
                {| stdout := []; settled := Pending |}) as [st' [Hrun [_ Hrej]]].
    assert (Hq : queryFAISSVectorStore host query topK = Normal (settled st')).
    { unfold queryFAISSVectorStore. cbv zeta. rewrite Hprocess, Hrun. reflexivity. }
    exists (settled st'). split; [assumption|]. split.
    + intros e He. apply Hrej in He. discriminate.
    + intro Hb. inversion Hb as [ | chunks e rest Hev | chunks code rest Hcode Hev
                                | chunks e rest Hparse Hev | chunks payload rest Hparse Hwf Hev];
        subst events.
      * assert (H : queryFAISSVectorStore host query topK = Normal (Fulfilled launch_advisory))
          by (eapply query_settles; [eassumption | reflexivity | reflexivity]).
        rewrite Hq in H. injection H as ->. eexists. reflexivity.
      * pose proof (query_closed host query topK chunks code rest Hprocess) as H.
        rewrite Hcode, Hq in H. injection H as ->. eexists. reflexivity.
      * pose proof (query_closed host query topK chunks (Some 0) rest Hprocess) as H.
        simpl not_zero in H. cbv iota in H. rewrite Hq in H. injection H as ->.
        unfold closed_with, query_result. rewrite Hparse. eexists. reflexivity.
      * pose proof (query_closed host query topK chunks (Some 0) rest Hprocess) as H.
        simpl not_zero in H. cbv iota in H. rewrite Hq in H. injection H as ->.
        destruct (closed_with_well_formed _ payload Hparse Hwf) as [l ->].
        now exists l.
  - exists (Fulfilled fallback_advisory). split; [|split].
    + unfold queryFAISSVectorStore. cbv zeta. now rewrite Hprocess.
    + discriminate.
    + intros _. eexists. reflexivity.
Qed.

(** C2. When the worker exits with a status code other than 0, the
    promise is fulfilled with the fixed list of two advisory lines; this
    holds of every query, the non-empty ones among them. *)
Theorem nonzero_exit_gives_two_line_advisory
    (host : Host) (query : jsstring) (topK : option Number.t)
    (chunks : list jsstring) (code : Z) (rest : list event) :
  query_process host query (default_topK topK) =
    Normal (map Data chunks ++ Close (Some code) :: rest) ->
  code <> 0 ->
  queryFAISSVectorStore host query topK =
  Normal (Fulfilled (strings
    [lit "RAG system temporarily unavailable. Using general medical knowledge.";
     lit "Please ensure the FAISS index is properly built from your medical documents."])).
Proof.
  intros Hprocess Hcode.
  rewrite (query_closed host query topK chunks (Some code) rest Hprocess).
  destruct code; [contradiction | reflexivity | reflexivity].
Qed.

(** C3, as amended. When the worker exits with code 0 and its payload
    carries a non-empty error text, the promise is fulfilled with the list
    of that text alone. *)
Theorem error_text_is_surfaced
    (host : Host) (query : jsstring) (topK : option Number.t)
    (chunks : list jsstring) (rest : list event) (payload : value) (X : jsstring) :
  query_process host query (default_topK topK) =
    Normal (map Data chunks ++ Close (Some 0) :: rest) ->
  JSON.parse (jsonString (List.concat chunks)) = Normal payload ->
  get payload (lit "error") = Normal (VString X) ->
  X <> [] ->
  queryFAISSVectorStore host query topK = Normal (Fulfilled (strings [X])).
Proof.
  intros Hprocess Hparse Herror HX.
  rewrite (query_closed host query topK chunks (Some 0) rest Hprocess).
  simpl not_zero. cbv iota. unfold closed_with, query_result.
  rewrite Hparse. cbn [bind]. rewrite Herror. cbn [bind].
  destruct X; [contradiction | reflexivity].
Qed.

(** C4, as amended. When the worker exits with code 0 and its payload
    carries a chunks list, no error field or a falsy one, and a
    chunk_count whose conversion to a string does not throw (it is no
    object with a toString property of its own and no array that holds
    one, directly or in nested arrays), the promise is fulfilled with
    that very list. *)
Theorem chunks_are_returned_as_they_are
    (host : Host) (query : jsstring) (topK : option Number.t)
    (chunks : list jsstring) (rest : list event)
    (payload error chunk_count : value) (snippets : list value) (count_text : jsstring) :
  query_process host query (default_topK topK) =
    Normal (map Data chunks ++ Close (Some 0) :: rest) ->
  JSON.parse (jsonString (List.concat chunks)) = Normal payload ->
  get payload (lit "chunks") = Normal (VArray snippets) ->
  get payload (lit "error") = Normal error ->
  ToBoolean error = false ->
  get payload (lit "chunk_count") = Normal chunk_count ->
  ToString chunk_count = Normal count_text ->
  queryFAISSVectorStore host query topK = Normal (Fulfilled (VArray snippets)).
Proof.
  intros Hprocess Hparse Hchunks Herror Hfalsy Hcount Htext.
  rewrite (query_closed host query topK chunks (Some 0) rest Hprocess).
  simpl not_zero. cbv iota. unfold closed_with, query_result.
  rewrite Hparse. cbn [bind]. rewrite Herror. cbn [bind]. rewrite Hfalsy.
  rewrite Hcount. cbn [bind]. rewrite Htext. cbn [bind]. rewrite Hchunks.
  reflexivity.
Qed.

(** C10, as amended. When the worker exits with code 0 and its payload,
    not null, carries no error field or a falsy one, no chunks field or a
    falsy one, and a chunk_count whose conversion to a string does not
    throw (it is no object with a toString property of its own and no
    array that holds one, directly or in nested arrays), the promise is
    fulfilled with the empty list. *)
Theorem parsed_but_empty_gives_no_snippets
    (host : Host) (query : jsstring) (topK : option Number.t)
    (chunks : list jsstring) (rest : list event)
    (payload error chunk_count chunks_field : value) (count_text : jsstring) :
  query_process host query (default_topK topK) =
    Normal (map Data chunks ++ Close (Some 0) :: rest) ->
  JSON.parse (jsonString (List.concat chunks)) = Normal payload ->
  get payload (lit "error") = Normal error ->
  ToBoolean error = false ->
  get payload (lit "chunks") = Normal chunks_field ->
  ToBoolean chunks_field = false ->
  get payload (lit "chunk_count") = Normal chunk_count ->
  ToString chunk_count = Normal count_text ->
  queryFAISSVectorStore host query topK = Normal (Fulfilled (VArray [])).
Proof.
  intros Hprocess Hparse Herror Hfalsy Hchunks Hnone Hcount Htext.
  rewrite (query_closed host query topK chunks (Some 0) rest Hprocess).
  simpl not_zero. cbv iota. unfold closed_with, query_result.
  rewrite Hparse. cbn [bind]. rewrite Herror. cbn [bind]. rewrite Hfalsy.
  rewrite Hcount. cbn [bind]. rewrite Htext. cbn [bind]. rewrite Hchunks.
  cbn [bind]. now rewrite Hnone.
Qed.

(** C5, as amended. When the output of the worker is a text without a
    left brace followed by a valid payload that starts with one, the text
    handed to JSON.parse is the payload alone, parsing succeeds with the
    value of the payload, and both functions go on as if the leading
    text had not been there. *)
Theorem leading_text_is_discarded (pre body : jsstring) (payload : value) :
  ~ In 123%N pre ->
  JSON.parse (lit "{" ++ body) = Normal payload ->
  jsonString (pre ++ lit "{" ++ body) = lit "{" ++ body /\
  JSON.parse (jsonString (pre ++ lit "{" ++ body)) = Normal payload /\
  query_result (pre ++ lit "{" ++ body) = query_result (lit "{" ++ body) /\
  status_result (pre ++ lit "{" ++ body) = status_result (lit "{" ++ body).
Proof.
  intros Hpre Hparse. change (lit "{" ++ body) with (123%N :: body) in *.
  assert (Hskip : jsonString (pre ++ 123%N :: body) = 123%N :: body)
    by now apply jsonString_skips.
  assert (Hself : jsonString (123%N :: body) = 123%N :: body)
    by (apply (jsonString_skips [] body); intros []).
  repeat split.
  - assumption.
  - now rewrite Hskip.
  - unfold query_result. now rewrite Hskip, Hself.
  - unfold status_result. now rewrite Hskip, Hself.
Qed.

Lemma toString_nonpositive (x : Number.t) :
  Number.nonpositive x = true -> nonpositive_text (Number.toString x) = true.
Proof.
  destruct x as [|neg|neg m e]; simpl Number.nonpositive; intro H.
  - discriminate.
  - subst neg. reflexivity.
  - destruct m as [|p]; [reflexivity|].
    rewrite orb_false_r in H. subst neg.
    unfold Number.toString.
    destruct (Number.shortest _ _ _ _ _ _) as [k [s n']].
    reflexivity.
Qed.

(** C9, as amended. Whenever the working directory can be read, spawn is
    called with the text of topK itself (of 5 when topK is left out) after
    [--top-k]; nothing is rejected or clamped, and for a topK that is zero
    or negative that text is [0] or starts with a minus sign. *)
Theorem topK_is_passed_through
    (host : Host) (query : jsstring) (topK : option Number.t) (dir : jsstring) :
  cwd host = Normal dir ->
  exists pythonExe pythonScriptPath,
    query_process host query (default_topK topK) =
      spawn host pythonExe
        [pythonScriptPath; query; lit "--top-k"; Number.toString (default_topK topK)] /\
    (Number.nonpositive (default_topK topK) = true ->
     nonpositive_text (Number.toString (default_topK topK)) = true).
Proof.
  intro Hcwd. unfold query_process, query_command. rewrite Hcwd. cbn [bind fst snd].
  do 2 eexists. split; [reflexivity | apply toString_nonpositive].
Qed.

(** ** The listeners of checkRAGSystemStatus *)

Lemma status_on_close_nonzero (code : option Z) (st : call RAGStatus) :
  not_zero code = true ->
  status_on_close code st = Normal (resolve_with (exit_status code) st).
Proof. intro H. unfold status_on_close. now rewrite H. Qed.

Lemma status_on_close_zero (st : call RAGStatus) :
  status_on_close (Some 0) st =
  Normal (resolve_with
            match status_result (stdout st) with
            | Normal s => s
            | Throw e => parse_error_status e (stdout st)
            end st).
Proof.
  unfold status_on_close. simpl not_zero. cbv iota.
  now destruct (status_result (stdout st)).
Qed.

Lemma status_listener_resolves (ev : event) (st : call RAGStatus) :
  exists st',
    status_listener ev st = Normal st' /\
    (settled st' = settled st \/ exists a, settled st' = resolve a (settled st)).
Proof.
  destruct ev as [chunk | code | error]; simpl.
  - eexists. split; [reflexivity | now left].
  - destruct (not_zero code) eqn:Hcode.
    + rewrite status_on_close_nonzero by assumption.
      eexists. split; [reflexivity | right; eexists; reflexivity].
    + destruct code as [[| |]|]; try discriminate.
      rewrite status_on_close_zero.
      eexists. split; [reflexivity | right; eexists; reflexivity].
  - eexists. split; [reflexivity | right; eexists; reflexivity].
Qed.

Lemma status_listener_data (chunk : jsstring) (st : call RAGStatus) :
  status_listener (Data chunk) st = Normal (on_data chunk st).
Proof. reflexivity. Qed.

Lemma status_settles (host : Host) (chunks : list jsstring) (ev : event)
    (rest : list event) (st' : call RAGStatus) (s : RAGStatus) :
  status_process host = Normal (map Data chunks ++ ev :: rest) ->
  status_listener ev {| stdout := List.concat chunks; settled := Pending |} = Normal st' ->
  settled st' = Fulfilled s ->
  checkRAGSystemStatus host = Normal (Fulfilled s).
Proof.
  intros Hprocess Hev Hs. unfold checkRAGSystemStatus. cbv zeta. rewrite Hprocess.
  rewrite (deliver_data status_listener status_listener_data). simpl deliver.
  simpl app. rewrite Hev. simpl bind.
  destruct (deliver_fulfilled status_listener status_listener_resolves rest st' s Hs)
    as [st'' [Hrun Hkeep]].
  rewrite Hrun. simpl. now rewrite Hkeep.
Qed.

(** C6. checkRAGSystemStatus never throws and never rejects, and on every
    failure path (an exception before or in spawn, an 'error' event, an
    exit with a code other than 0, an exception while the output is parsed
    and read) the promise is fulfilled with a status whose ready is false,
    with the diagnostic message and the details of that path. *)
Theorem status_check_never_throws_nor_rejects (host : Host) :
  exists p,
    checkRAGSystemStatus host = Normal p /\
    (forall e, p <> Rejected e) /\
    (forall s, status_failure (status_process host) s ->
               p = Fulfilled s /\ ready s = VBool false).
Proof.
  destruct (status_process host) as [events|error] eqn:Hprocess.
  - destruct (deliver_returns status_listener status_listener_resolves events
                {| stdout := []; settled := Pending |}) as [st' [Hrun [_ Hrej]]].
    assert (Hq : checkRAGSystemStatus host = Normal (settled st')).
    { unfold checkRAGSystemStatus. cbv zeta. rewrite Hprocess, Hrun. reflexivity. }
    exists (settled st'). split; [assumption|]. split.
    + intros e He. apply Hrej in He. discriminate.
    + intros s Hfail.
      inversion Hfail as [ | chunks e rest Hev | chunks code rest Hcode Hev
                           | chunks e rest Hthrow Hev]; subst events s.
      * assert (H : checkRAGSystemStatus host = Normal (Fulfilled (launch_error_status e)))
          by (eapply status_settles; [eassumption | reflexivity | reflexivity]).
        rewrite Hq in H. injection H as ->. now split.
      * assert (H : checkRAGSystemStatus host = Normal (Fulfilled (exit_status code)))
          by (eapply status_settles;
              [eassumption | simpl; now rewrite status_on_close_nonzero | reflexivity]).
        rewrite Hq in H. injection H as ->. now split.
      * assert (H : checkRAGSystemStatus host =
                    Normal (Fulfilled (parse_error_status e (List.concat chunks)))).
        { eapply status_settles;
            [eassumption | simpl; now rewrite status_on_close_zero |].
          simpl. now rewrite Hthrow. }
        rewrite Hq in H. injection H as ->. now split.
  - exists (Fulfilled (internal_error_status error)). split; [|split].
    + unfold checkRAGSystemStatus. cbv zeta. now rewrite Hprocess.
    + discriminate.
    + intros s Hfail. inversion Hfail. now split.
Qed.

(** C7. When the worker cannot be launched, so that the child emits
    'error' before it is closed, the promise is fulfilled with ready false,
    the message [Python environment not available] and the error as
    details. *)
Theorem launch_failure_is_reported
    (host : Host) (chunks : list jsstring) (error : exn) (rest : list event) :
  status_process host = Normal (map Data chunks ++ Error error :: rest) ->
  checkRAGSystemStatus host =
  Normal (Fulfilled {| ready := VBool false;
                       message := lit "Python environment not available";
                       details := details_error error |}).
Proof.
  intro Hprocess.
  eapply status_settles; [eassumption | reflexivity | reflexivity].
Qed.

(** C8. When the worker exits with code 0 and its payload carries a
    boolean ready and a numeric doc_count, the promise is fulfilled with
    that flag, with the message made of the text of the count when the
    flag is true and the fixed message that asks for the index to be built
    when it is false, and with the payload itself as details. *)
Theorem readiness_is_reported
    (host : Host) (chunks : list jsstring) (rest : list event)
    (status : value) (flag : bool) (doc_count : Number.t) :
  status_process host = Normal (map Data chunks ++ Close (Some 0) :: rest) ->
  JSON.parse (jsonString (List.concat chunks)) = Normal status ->
  get status (lit "ready") = Normal (VBool flag) ->
  get status (lit "doc_count") = Normal (VNumber doc_count) ->
  checkRAGSystemStatus host =
  Normal (Fulfilled
    {| ready := VBool flag;
       message :=
         if flag
         then lit "RAG system ready with " ++ Number.toString doc_count ++ lit " documents"
         else lit "RAG system not ready - please build FAISS index";
       details := details_status status |}).
Proof.
  intros Hprocess Hparse Hready Hcount.
  eapply status_settles; [eassumption | simpl; now rewrite status_on_close_zero |].
  simpl. unfold status_result. rewrite Hparse. cbn [bind]. rewrite Hready. cbn [bind ToBoolean].
  destruct flag.
  - rewrite Hcount. reflexivity.
  - reflexivity.
Qed.

(** ** The theorems at sample hosts *)

Lemma retrieve_never_throws_nor_rejects_witness :
  worker_behaviour (query_process chatty_worker (lit "fever") (default_topK None)) /\
  exists l, queryFAISSVectorStore chatty_worker (lit "fever") None =
            Normal (Fulfilled (strings l)).
Proof.
  assert (Hb : worker_behaviour (query_process chatty_worker (lit "fever") (default_topK None))).
  { apply (well_formed_output
             [lit "Loading index... "; json_text "{'chunks': ['a', 'b'], 'chunk_count': 2}"]
             (VObject [(lit "chunks", strings [lit "a"; lit "b"]);
                       (lit "chunk_count", VNumber (Number.of_Z 2))])
             []); vm_compute; reflexivity. }
  split; [exact Hb|].
  destruct (retrieve_never_throws_nor_rejects chatty_worker (lit "fever") None)
    as [p [Hq [_ Hl]]].
  destruct (Hl Hb) as [l Hp]. exists l. rewrite Hq, Hp. reflexivity.
Defined.

Lemma nonzero_exit_gives_two_line_advisory_witness :
  queryFAISSVectorStore
    (worker [Data (lit "Traceback (most recent call last):"); Close (Some 1)])
    (lit "fever") (Some (Number.of_Z 3)) =
  Normal (Fulfilled unavailable_advisory).
Proof.
  apply (nonzero_exit_gives_two_line_advisory
           (worker [Data (lit "Traceback (most recent call last):"); Close (Some 1)])
           (lit "fever") (Some (Number.of_Z 3))
           [lit "Traceback (most recent call last):"] 1 []);
    [reflexivity | lia].
Defined.

Lemma error_text_is_surfaced_witness :
  queryFAISSVectorStore
    (worker [Data (json_text "{'error': 'X'}"); Close (Some 0)]) (lit "fever") None =
  Normal (Fulfilled (strings [lit "X"])).
Proof.
  apply (error_text_is_surfaced
           (worker [Data (json_text "{'error': 'X'}"); Close (Some 0)]) (lit "fever") None
           [json_text "{'error': 'X'}"] []
           (VObject [(lit "error", VString (lit "X"))]) (lit "X"));
    [reflexivity | vm_compute; reflexivity | reflexivity | discriminate].
Defined.

Lemma chunks_are_returned_as_they_are_witness :
  queryFAISSVectorStore
    (worker [Data (json_text "{'chunks': ['a', 'b'], 'chunk_count': 2}"); Close (Some 0)])
    (lit "fever") None =
  Normal (Fulfilled (strings [lit "a"; lit "b"])).
Proof.
  apply (chunks_are_returned_as_they_are
           (worker [Data (json_text "{'chunks': ['a', 'b'], 'chunk_count': 2}");
                    Close (Some 0)])
           (lit "fever") None
           [json_text "{'chunks': ['a', 'b'], 'chunk_count': 2}"] []
           (VObject [(lit "chunks", strings [lit "a"; lit "b"]);
                     (lit "chunk_count", VNumber (Number.of_Z 2))])
           VUndefined (VNumber (Number.of_Z 2)) [VString (lit "a"); VString (lit "b")]
           (lit "2"));
    [reflexivity | vm_compute; reflexivity | reflexivity | reflexivity | reflexivity
     | reflexivity | vm_compute; reflexivity].
Defined.

Lemma leading_text_is_discarded_witness :
  JSON.parse
    (jsonString (lit "UserWarning: slow tokenizer " ++ lit "{" ++ json_text "'ready': true}")) =
  Normal (VObject [(lit "ready", VBool true)]).
Proof.
  apply (leading_text_is_discarded
           (lit "UserWarning: slow tokenizer ") (json_text "'ready': true}")
           (VObject [(lit "ready", VBool true)])).
  - vm_compute. intuition discriminate.
  - vm_compute. reflexivity.
Defined.

Lemma status_check_never_throws_nor_rejects_witness :
  status_failure (status_process (worker [Data (lit "Segmentation fault"); Close None]))
                 (exit_status None) /\
  checkRAGSystemStatus (worker [Data (lit "Segmentation fault"); Close None]) =
  Normal (Fulfilled {| ready := VBool false;
                       message := lit "RAG system check failed (exit code null)";
                       details := details_code None |}).
Proof.
  assert (Hfail : status_failure
                    (status_process (worker [Data (lit "Segmentation fault"); Close None]))
                    (exit_status None))
    by (apply (exit_failure [lit "Segmentation fault"] None []); reflexivity).
  split; [exact Hfail|].
  destruct (status_check_never_throws_nor_rejects
              (worker [Data (lit "Segmentation fault"); Close None])) as [p [Hq [_ Hs]]].
  destruct (Hs _ Hfail) as [Hp _]. rewrite Hq, Hp. reflexivity.
Defined.

Lemma launch_failure_is_reported_witness :
  checkRAGSystemStatus no_python =
  Normal (Fulfilled
    {| ready := VBool false;
       message := lit "Python environment not available";
       details := details_error (HostError (lit "spawn /app/.venv/bin/python ENOENT")) |}).
Proof.
  apply (launch_failure_is_reported no_python []
           (HostError (lit "spawn /app/.venv/bin/python ENOENT")) [Close (Some (-2))]).
  reflexivity.
Defined.

Lemma readiness_is_reported_witness :
  checkRAGSystemStatus
    (worker [Data (json_text "{'ready': true, 'doc_count': 42}"); Close (Some 0)]) =
  Normal (Fulfilled
    {| ready := VBool true;
       message := lit "RAG system ready with 42 documents";
       details := details_status (VObject [(lit "ready", VBool true);
                                           (lit "doc_count", VNumber (Number.of_Z 42))]) |}).
Proof.
  apply (readiness_is_reported
           (worker [Data (json_text "{'ready': true, 'doc_count': 42}"); Close (Some 0)])
           [json_text "{'ready': true, 'doc_count': 42}"] []
           (VObject [(lit "ready", VBool true); (lit "doc_count", VNumber (Number.of_Z 42))])
           true (Number.of_Z 42));
    [reflexivity | vm_compute; reflexivity | reflexivity | reflexivity].
Defined.

Lemma topK_is_passed_through_witness :
  cwd (worker []) = Normal (lit "/app") /\
  Number.nonpositive (default_topK (Some (Number.of_Z (-3)))) = true /\
  nonpositive_text (Number.toString (default_topK (Some (Number.of_Z (-3))))) = true.
Proof.
  split; [reflexivity|]. split; [reflexivity|].
  destruct (topK_is_passed_through (worker []) (lit "fever") (Some (Number.of_Z (-3)))
              (lit "/app") eq_refl) as [pythonExe [pythonScriptPath [_ Htext]]].
  apply Htext. reflexivity.
Defined.

Lemma parsed_but_empty_gives_no_snippets_witness :
  queryFAISSVectorStore
    (worker [Data (json_text "{'error': null, 'chunk_count': 0}"); Close (Some 0)])
    (lit "fever") None =
  Normal (Fulfilled (strings [])).
Proof.
  apply (parsed_but_empty_gives_no_snippets
           (worker [Data (json_text "{'error': null, 'chunk_count': 0}"); Close (Some 0)])
           (lit "fever") None
           [json_text "{'error': null, 'chunk_count': 0}"] []
           (VObject [(lit "error", VNull); (lit "chunk_count", VNumber (Number.of_Z 0))])
           VNull (VNumber (Number.of_Z 0)) VUndefined (lit "0"));
    [reflexivity | vm_compute; reflexivity | reflexivity | reflexivity | reflexivity
     | reflexivity | reflexivity | vm_compute; reflexivity].
Defined.

(** ** Where the code departs from the specification *)

(** C3 as stated fails: a payload whose error field is the empty text is
    answered with the empty list, not with the list of that text. *)
Lemma empty_error_text_is_dropped :
  JSON.parse (jsonString (json_text "{'error': ''}")) =
    Normal (VObject [(lit "error", VString [])]) /\
  queryFAISSVectorStore
    (worker [Data (json_text "{'error': ''}"); Close (Some 0)]) (lit "fever") None =
    Normal (Fulfilled (strings [])) /\
  queryFAISSVectorStore
    (worker [Data (json_text "{'error': ''}"); Close (Some 0)]) (lit "fever") None <>
    Normal (Fulfilled (strings [ [] ])).
Proof.
  split; [vm_compute; reflexivity|]. split; [vm_compute; reflexivity|].
  vm_compute. discriminate.
Qed.

(** C4 as stated fails: a payload that carries a chunks list and an error
    text is answered with the error text, and one whose chunk_count is an
    object with a toString property of its own is answered with the
    advisory of the catch clause. *)
Lemma error_field_hides_chunks :
  JSON.parse (jsonString (json_text "{'error': 'X', 'chunks': ['a', 'b'], 'chunk_count': 2}")) =
    Normal (VObject [(lit "error", VString (lit "X"));
                     (lit "chunks", strings [lit "a"; lit "b"]);
                     (lit "chunk_count", VNumber (Number.of_Z 2))]) /\
  queryFAISSVectorStore
    (worker [Data (json_text "{'error': 'X', 'chunks': ['a', 'b'], 'chunk_count': 2}");
             Close (Some 0)]) (lit "fever") None =
    Normal (Fulfilled (strings [lit "X"])) /\
  JSON.parse (jsonString (json_text "{'chunks': ['a', 'b'], 'chunk_count': {'toString': 0}}")) =
    Normal (VObject [(lit "chunks", strings [lit "a"; lit "b"]);
                     (lit "chunk_count",
                      VObject [(lit "toString", VNumber (Number.of_Z 0))])]) /\
  queryFAISSVectorStore
    (worker [Data (json_text "{'chunks': ['a', 'b'], 'chunk_count': {'toString': 0}}");
             Close (Some 0)]) (lit "fever") None =
    Normal (Fulfilled parse_advisory) /\
  strings [lit "X"] <> strings [lit "a"; lit "b"] /\
  parse_advisory <> strings [lit "a"; lit "b"].
Proof.
  repeat split; try (vm_compute; reflexivity); vm_compute; discriminate.
Qed.

(** C5 as stated fails: leading text that holds a left brace of its own
    makes the parse fail although a valid payload follows it. *)
Lemma brace_in_leading_text_breaks_parsing :
  JSON.parse (json_text "{'chunks': ['a'], 'chunk_count': 1}") =
    Normal (VObject [(lit "chunks", strings [lit "a"]);
                     (lit "chunk_count", VNumber (Number.of_Z 1))]) /\
  JSON.parse (jsonString (lit "Loading {cached} index " ++
                          json_text "{'chunks': ['a'], 'chunk_count': 1}")) =
    Throw (SyntaxError (lit "{cached} index " ++
                        json_text "{'chunks': ['a'], 'chunk_count': 1}")) /\
  queryFAISSVectorStore
    (worker [Data (lit "Loading {cached} index " ++
                   json_text "{'chunks': ['a'], 'chunk_count': 1}");
             Close (Some 0)]) (lit "fever") None =
    Normal (Fulfilled parse_advisory).
Proof.
  repeat split; vm_compute; reflexivity.
Qed.

(** C9 as stated fails: a topK of zero and a negative one reach the worker
    as they are. *)
Lemma nonpositive_topK_reaches_worker :
  query_command (worker []) (lit "fever") (default_topK (Some (Number.of_Z 0))) =
    Normal (lit "/app/.venv/bin/python",
            [lit "/app/lib/rag_service.py"; lit "fever"; lit "--top-k"; lit "0"]) /\
  query_command (worker []) (lit "fever") (default_topK (Some (Number.of_Z (-3)))) =
    Normal (lit "/app/.venv/bin/python",
            [lit "/app/lib/rag_service.py"; lit "fever"; lit "--top-k"; lit "-3"]) /\
  queryFAISSVectorStore echo_last_argument (lit "fever") (Some (Number.of_Z 0)) =
    Normal (Fulfilled (strings [lit "0"])) /\
  queryFAISSVectorStore echo_last_argument (lit "fever") (Some (Number.of_Z (-3))) =
    Normal (Fulfilled (strings [lit "-3"])).
Proof.
  repeat split; vm_compute; reflexivity.
Qed.

(** C10 as stated fails: a payload without error and chunks whose
    chunk_count is an object with a toString property of its own, and the
    payload null, are answered with the advisory of the catch clause, not
    with the empty list. *)
Lemma unprintable_chunk_count_gives_advisory :
  JSON.parse (jsonString (json_text "{'chunk_count': {'toString': 0}}")) =
    Normal (VObject [(lit "chunk_count",
                      VObject [(lit "toString", VNumber (Number.of_Z 0))])]) /\
  queryFAISSVectorStore
    (worker [Data (json_text "{'chunk_count': {'toString': 0}}"); Close (Some 0)])
    (lit "fever") None =
    Normal (Fulfilled parse_advisory) /\
  JSON.parse (jsonString (lit "null")) = Normal VNull /\
  queryFAISSVectorStore (worker [Data (lit "null"); Close (Some 0)]) (lit "fever") None =
    Normal (Fulfilled parse_advisory) /\
  parse_advisory <> VArray [].
Proof.
  repeat split; try (vm_compute; reflexivity); vm_compute; discriminate.
Qed.

(** * Further properties of src/lib/rag-server.ts *)

Lemma query_never_rejects (host : Host) (query : jsstring) (topK : option Number.t) :
  exists p, queryFAISSVectorStore host query topK = Normal p /\ forall e, p <> Rejected e.
Proof.
  unfold queryFAISSVectorStore. cbv zeta.
  destruct (query_process host query (default_topK topK)) as [events|error].
  - destruct (deliver_returns query_listener query_listener_resolves events
                {| stdout := []; settled := Pending |}) as [st' [Hrun [_ Hrej]]].
    rewrite Hrun. exists (settled st'). split; [reflexivity|].
    intros e He. apply Hrej in He. discriminate.
  - eexists. split; [reflexivity | discriminate].
Qed.

Lemma status_never_rejects (host : Host) :
  exists p, checkRAGSystemStatus host = Normal p /\ forall e, p <> Rejected e.
Proof.
  unfold checkRAGSystemStatus. cbv zeta.
  destruct (status_process host) as [events|error].
  - destruct (deliver_returns status_listener status_listener_resolves events
                {| stdout := []; settled := Pending |}) as [st' [Hrun [_ Hrej]]].
    rewrite Hrun. exists (settled st'). split; [reflexivity|].
    intros e He. apply Hrej in He. discriminate.
  - eexists. split; [reflexivity | discriminate].
Qed.

Lemma status_closed (host : Host) (chunks : list jsstring) (code : option Z)
    (rest : list event) :
  status_process host = Normal (map Data chunks ++ Close code :: rest) ->
  checkRAGSystemStatus host =
  Normal (Fulfilled (if not_zero code then exit_status code
                     else match status_result (List.concat chunks) with
                          | Normal s => s
                          | Throw e => parse_error_status e (List.concat chunks)
                          end)).
Proof.
  intro Hprocess. destruct (not_zero code) eqn:Hcode.
  - eapply status_settles;
      [eassumption | simpl; now rewrite status_on_close_nonzero | reflexivity].
  - destruct code as [[| |]|]; try discriminate.
    eapply status_settles;
      [eassumption | simpl; now rewrite status_on_close_zero | reflexivity].
Qed.

(** X1. When the worker cannot be launched, so that the child emits
    'error' before it is closed, queryFAISSVectorStore resolves to the two
    lines that ask for the Python dependencies to be installed, whatever
    the child emits afterwards. *)
Theorem launch_failure_gives_install_advisory
    (host : Host) (query : jsstring) (topK : option Number.t)
    (chunks : list jsstring) (error : exn) (rest : list event) :
  query_process host query (default_topK topK) =
    Normal (map Data chunks ++ Error error :: rest) ->
  queryFAISSVectorStore host query topK =
  Normal (Fulfilled (strings
    [lit "RAG system unavailable. Please ensure Python dependencies are installed.";
     lit "Run: pip install -r requirements.txt"])).
Proof.
  intro Hprocess.
  eapply query_settles; [eassumption | reflexivity | reflexivity].
Qed.

(** X2. When the worker exits with code 0 and the text taken from its
    output is not JSON, queryFAISSVectorStore resolves to the one line of
    the catch clause. *)
Theorem unparseable_output_gives_one_line_advisory
    (host : Host) (query : jsstring) (topK : option Number.t)
    (chunks : list jsstring) (rest : list event) (e : exn) :
  query_process host query (default_topK topK) =
    Normal (map Data chunks ++ Close (Some 0) :: rest) ->
  JSON.parse (jsonString (List.concat chunks)) = Throw e ->
  queryFAISSVectorStore host query topK =
  Normal (Fulfilled (strings
    [lit "Error processing RAG query. Please check the system configuration."])).
Proof.
  intros Hprocess Hparse.
  rewrite (query_closed host query topK chunks (Some 0) rest Hprocess).
  simpl not_zero. cbv iota. unfold closed_with, query_result. now rewrite Hparse.
Qed.

(** X3. There is no timeout: when the child emits output only, neither
    'close' nor 'error', both promises stay pending. *)
Theorem silent_child_leaves_promises_pending
    (host : Host) (query : jsstring) (topK : option Number.t) (chunks : list jsstring) :
  (query_process host query (default_topK topK) = Normal (map Data chunks) ->
   queryFAISSVectorStore host query topK = Normal Pending) /\
  (status_process host = Normal (map Data chunks) ->
   checkRAGSystemStatus host = Normal Pending).
Proof.
  split; intro Hprocess.
  - unfold queryFAISSVectorStore. cbv zeta. rewrite Hprocess.
    rewrite <- (app_nil_r (map Data chunks)).
    now rewrite (deliver_data query_listener query_listener_data).
  - unfold checkRAGSystemStatus. cbv zeta. rewrite Hprocess.
    rewrite <- (app_nil_r (map Data chunks)).
    now rewrite (deliver_data status_listener status_listener_data).
Qed.

(** X4. What queryFAISSVectorStore resolves to when the child is closed
    depends on the exit code and on the output as a whole only: not on
    how the output is cut into chunks, nor on the events after 'close',
    nor on the query or topK. *)
Theorem query_result_depends_on_code_and_output_only
    (host host' : Host) (query query' : jsstring) (topK topK' : option Number.t)
    (chunks chunks' : list jsstring) (code : option Z) (rest rest' : list event) :
  query_process host query (default_topK topK) =
    Normal (map Data chunks ++ Close code :: rest) ->
  query_process host' query' (default_topK topK') =
    Normal (map Data chunks' ++ Close code :: rest') ->
  List.concat chunks = List.concat chunks' ->
  queryFAISSVectorStore host query topK = queryFAISSVectorStore host' query' topK'.
Proof.
  intros H H' Hsame.
  rewrite (query_closed _ _ _ _ _ _ H), (query_closed _ _ _ _ _ _ H').
  now rewrite Hsame.
Qed.

(** X5. The same for checkRAGSystemStatus. *)
Theorem status_depends_on_code_and_output_only
    (host host' : Host) (chunks chunks' : list jsstring) (code : option Z)
    (rest rest' : list event) :
  status_process host = Normal (map Data chunks ++ Close code :: rest) ->
  status_process host' = Normal (map Data chunks' ++ Close code :: rest') ->
  List.concat chunks = List.concat chunks' ->
  checkRAGSystemStatus host = checkRAGSystemStatus host'.
Proof.
  intros H H' Hsame.
  rewrite (status_closed _ _ _ _ H), (status_closed _ _ _ _ H').
  now rewrite Hsame.
Qed.

(** X6. The ready field of the payload is passed on as it is, not made a
    boolean, and the message follows its truthiness; the count is put in
    the message as a template literal renders it, an absent doc_count as
    the text undefined. *)
Theorem ready_is_passed_through_uncoerced
    (host : Host) (chunks : list jsstring) (rest : list event)
    (status ready_ doc_count : value) (count_text : jsstring) :
  status_process host = Normal (map Data chunks ++ Close (Some 0) :: rest) ->
  JSON.parse (jsonString (List.concat chunks)) = Normal status ->
  get status (lit "ready") = Normal ready_ ->
  get status (lit "doc_count") = Normal doc_count ->
  ToString doc_count = Normal count_text ->
  checkRAGSystemStatus host =
  Normal (Fulfilled
    {| ready := ready_;
       message :=
         if ToBoolean ready_
         then lit "RAG system ready with " ++ count_text ++ lit " documents"
         else lit "RAG system not ready - please build FAISS index";
       details := details_status status |}).
Proof.
  intros Hprocess Hparse Hready Hcount Htext.
  rewrite (status_closed host chunks (Some 0) rest Hprocess).
  simpl not_zero. cbv iota. unfold status_result.
  rewrite Hparse. cbn [bind]. rewrite Hready. cbn [bind].
  destruct (ToBoolean ready_).
  - rewrite Hcount. cbn [bind]. rewrite Htext. reflexivity.
  - reflexivity.
Qed.

(** * The stream of the chat routes *)

Lemma replace_all_app (c : N) (by_ a b : jsstring) :
  replace_all c by_ (a ++ b) = replace_all c by_ a ++ replace_all c by_ b.
Proof. unfold replace_all. apply flat_map_app. Qed.

Lemma escape_text_cons (c : N) (text : jsstring) :
  escape_text (c :: text) = escape_character c ++ escape_text text.
Proof.
  unfold escape_text, escape_character.
  change (c :: text) with ([c] ++ text).
  rewrite !replace_all_app. f_equal.
  unfold replace_all. simpl.
  destruct (N.eqb_spec c 92) as [->|H92]; [reflexivity|].
  simpl. destruct (N.eqb_spec c 34) as [->|H34]; [reflexivity|].
  simpl. destruct (N.eqb_spec c 10) as [->|H10]; reflexivity.
Qed.

Lemma string_characters_escaped (text : jsstring) :
  forall acc rest,
    (forall c, In c text -> (32 <= c)%N \/ c = 10%N) ->
    JSON.string_characters (escape_text text ++ 34%N :: rest) acc =
    Some (rev acc ++ text, rest).
Proof.
  induction text as [|c text IH]; intros acc rest Hprintable.
  - simpl. now rewrite app_nil_r.
  - rewrite escape_text_cons.
    assert (Htail : forall d, In d text -> (32 <= d)%N \/ d = 10%N)
      by (intros d Hd; apply Hprintable; now right).
    assert (Hnext : forall acc', rev acc' = rev acc ++ [c] ->
              JSON.string_characters (escape_text text ++ 34%N :: rest) acc' =
              Some (rev acc ++ c :: text, rest)).
    { intros acc' Hacc. rewrite IH by assumption. rewrite Hacc, <- app_assoc. reflexivity. }
    unfold escape_character.
    destruct (N.eqb_spec c 92) as [->|H92]; [now apply Hnext|].
    destruct (N.eqb_spec c 34) as [->|H34]; [now apply Hnext|].
    destruct (N.eqb_spec c 10) as [->|H10]; [now apply Hnext|].
    cbn [app JSON.string_characters].
    rewrite (proj2 (N.eqb_neq c 34) H34), (proj2 (N.eqb_neq c 92) H92).
    replace (c <? 32)%N with false.
    + now apply Hnext.
    + symmetry. apply N.ltb_ge. destruct (Hprintable c (or_introl eq_refl)); [assumption | contradiction].
Qed.

Lemma string_characters_control (text : jsstring) :
  forall acc rest c,
    In c text -> (c < 32)%N -> c <> 10%N ->
    JSON.string_characters (escape_text text ++ rest) acc = None.
Proof.
  induction text as [|d text IH]; intros acc rest c Hin Hlow Hnot; [contradiction|].
  rewrite escape_text_cons.
  assert (Hnext : d <> c -> forall acc',
            JSON.string_characters (escape_text text ++ rest) acc' = None).
  { intros Hd acc'. apply (IH acc' rest c); [|assumption|assumption].
    destruct Hin as [Heq|Hin]; [contradiction | assumption]. }
  unfold escape_character.
  destruct (N.eqb_spec d 92) as [->|H92]; [apply Hnext; lia|].
  destruct (N.eqb_spec d 34) as [->|H34]; [apply Hnext; lia|].
  destruct (N.eqb_spec d 10) as [->|H10]; [apply Hnext; congruence|].
  cbn [app JSON.string_characters].
  rewrite (proj2 (N.eqb_neq d 34) H34), (proj2 (N.eqb_neq d 92) H92).
  destruct (N.ltb_spec d 32) as [Hd|Hd]; [reflexivity|].
  apply Hnext. lia.
Qed.

Lemma parse_quoted (body : jsstring) :
  JSON.parse (34%N :: body) =
  match JSON.string_characters body [] with
  | Some (str, rest) =>
      match JSON.skip_whitespace rest with
      | [] => Normal (VString str)
      | _ => Throw (SyntaxError (34%N :: body))
      end
  | None => Throw (SyntaxError (34%N :: body))
  end.
Proof.
  unfold JSON.parse.
  replace (2 * List.length (34%N :: body) + 1)%nat
    with (S (2 * List.length (34%N :: body))) by lia.
  cbn [JSON.value_ JSON.skip_whitespace JSON.is_whitespace N.eqb orb Pos.eqb].
  now destruct (JSON.string_characters body []) as [[str rest]|].
Qed.

(** X7. What follows [0:] on the first line of the stream is a JSON
    string that reads back as the text, for every text whose characters
    are line feeds or not control characters. *)
Theorem text_line_reads_back (text : jsstring) :
  (forall c, In c text -> (32 <= c)%N \/ c = 10%N) ->
  JSON.parse (skipn 2 (text_line text)) = Normal (VString text).
Proof.
  intro Hprintable. unfold text_line. cbn [lit list_ascii_of_string map app skipn].
  rewrite parse_quoted.
  rewrite (string_characters_escaped text [] [] Hprintable). reflexivity.
Qed.

(** X8. A control character other than the line feed, a tab or a
    carriage return say, is left as it is by the three replacements: what
    follows [0:] is then not JSON. *)
Theorem control_character_breaks_text_line (text : jsstring) (c : N) :
  In c text -> (c < 32)%N -> c <> 10%N ->
  JSON.parse (skipn 2 (text_line text)) = Throw (SyntaxError (skipn 2 (text_line text))).
Proof.
  intros Hin Hlow Hnot. unfold text_line. cbn [lit list_ascii_of_string map app skipn].
  rewrite parse_quoted.
  now rewrite (string_characters_control text [] [34%N] c Hin Hlow Hnot).
Qed.

Lemma escape_text_no_line_feed (text : jsstring) : ~ In 10%N (escape_text text).
Proof.
  induction text as [|c text IH]; [intros []|].
  rewrite escape_text_cons. intro H. apply in_app_or in H as [H|H]; [|contradiction].
  unfold escape_character in H.
  destruct (N.eqb_spec c 92); [simpl in H; intuition discriminate|].
  destruct (N.eqb_spec c 34); [simpl in H; intuition discriminate|].
  destruct (N.eqb_spec c 10); [simpl in H; intuition discriminate|].
  simpl in H. destruct H as [H|[]]. congruence.
Qed.

Lemma split_at_first (c : N) (a b : jsstring) :
  ~ In c a -> split c (a ++ c :: b) = a :: split c b.
Proof.
  induction a as [|d a IH]; intro Hnot; simpl.
  - now rewrite N.eqb_refl.
  - destruct (N.eqb_spec d c) as [->|Hd]; [exfalso; apply Hnot; now left|].
    rewrite IH by (intro H; apply Hnot; now right). reflexivity.
Qed.

(** X9. However many line feeds the text holds, the body of the stream,
    cut at its line feeds, is the text line, the finish line and two
    empty strings: the text stays on one line. *)
Theorem stream_is_three_lines (text : jsstring) :
  split 10 (List.concat (stream_chunks text)) = [text_line text; finish_line; []; []].
Proof.
  unfold stream_chunks, stream_lines. cbn [map List.concat].
  rewrite app_nil_r, <- !app_assoc. cbn [app].
  rewrite split_at_first.
  - rewrite split_at_first by (vm_compute; intuition discriminate). reflexivity.
  - unfold text_line. intro H.
    apply in_app_or in H as [H|H]; [revert H; vm_compute; intuition discriminate|].
    apply in_app_or in H as [H|H]; [simpl in H; intuition discriminate|].
    apply in_app_or in H as [H|H]; [now apply escape_text_no_line_feed in H|].
    simpl in H; intuition discriminate.
Qed.

(** * The routes that call the bridge *)

Lemma status_failure_fulfils (host : Host) (s : RAGStatus) :
  status_failure (status_process host) s ->
  checkRAGSystemStatus host = Normal (Fulfilled s) /\ ready s = VBool false.
Proof.
  intro Hfail.
  destruct (status_process host) as [events|error] eqn:Hprocess.
  - inversion Hfail as [ | chunks e rest Hev | chunks code rest Hcode Hev
                         | chunks e rest Hthrow Hev]; subst events s.
    + split; [|reflexivity].
      eapply status_settles; [eassumption | reflexivity | reflexivity].
    + split; [|reflexivity].
      rewrite (status_closed host chunks code rest Hprocess). now rewrite Hcode.
    + split; [|reflexivity].
      rewrite (status_closed host chunks (Some 0) rest Hprocess).
      simpl not_zero. cbv iota. now rewrite Hthrow.
  - inversion Hfail. subst. split; [|reflexivity].
    unfold checkRAGSystemStatus. cbv zeta. now rewrite Hprocess.
Qed.

(** X10. The status route never answers 500: the catch clause is never
    entered, every reply is the 200 one, and a worker that fails is
    reported inside it, under success true, with ready false. *)
Theorem status_route_never_answers_500 (host : Host) (now : jsstring) :
  (forall reply, GET host now = Return reply ->
                 http_status reply = 200 /\ exists s, reply = reply_ok s now) /\
  (forall s, status_failure (status_process host) s ->
             GET host now = Return (reply_ok s now) /\ ready s = VBool false).
Proof.
  unfold GET.
  destruct (status_never_rejects host) as [p [Hp Hnot]].
  split.
  - intros reply H. rewrite Hp in H. destruct p as [|s|e']; simpl in H; try discriminate.
    + injection H as <-. split; [reflexivity | now exists s].
    + now destruct (Hnot e').
  - intros s H. apply status_failure_fulfils in H as [H Hready].
    split; [now rewrite H | assumption].
Qed.

(** X11. When the readiness probe fails, on any of its failure paths, the
    chat route does not consult the worker for the query: the retrievals
    are the three fallback lines, the first of which carries the
    diagnostic message of the probe. *)
Theorem failed_probe_gives_fallback_retrievals
    (host : Host) (reportData userQuestion : value) (s : RAGStatus) :
  status_failure (status_process host) s ->
  rag_retrievals host reportData userQuestion =
  Return (s, strings
    [lit "RAG system status: " ++ message s;
     lit "Using general medical knowledge for this query";
     lit "To enable full RAG capabilities, please build the FAISS index using your medical documents"]).
Proof.
  intro Hfail. apply status_failure_fulfils in Hfail as [Hstatus Hready].
  unfold rag_retrievals. rewrite Hstatus. cbn [await async_bind].
  rewrite Hready. reflexivity.
Qed.

(** X12. When the probe says ready and queryFAISSVectorStore, called
    with the query of line 47 and a topK of 5, resolves to an array, an
    advisory one or the chunks of the worker, the retrievals are that
    array as it is: the fallback line of the route's own catch clause is
    not used. *)
Theorem retrievals_are_what_the_bridge_resolved
    (host : Host) (reportData userQuestion : jsstring) (s : RAGStatus)
    (snippets : list value) :
  checkRAGSystemStatus host = Normal (Fulfilled s) ->
  ToBoolean (ready s) = true ->
  queryFAISSVectorStore host
    (lit "Patient medical context: " ++ reportData ++ [10%N] ++
     lit "User question: " ++ userQuestion ++ [10%N] ++
     lit "Find relevant medical information:")
    (Some (Number.of_Z 5)) = Normal (Fulfilled (VArray snippets)) ->
  rag_retrievals host (VString reportData) (VString userQuestion) =
  Return (s, VArray snippets).
Proof.
  intros Hstatus Hready Hresult.
  unfold rag_retrievals. rewrite Hstatus. cbn [await async_bind]. rewrite Hready.
  unfold rag_query. cbn [ToString bind now_or_throw async_bind]. rewrite Hresult.
  reflexivity.
Qed.

(** X13. Lines 38-64 of the chat route never throw to the handler around
    them, whatever the host, the report and the question are; and the
    retrievals they give are always an array. *)
Theorem retrievals_never_throw (host : Host) (reportData userQuestion : value) :
  (forall e, rag_retrievals host reportData userQuestion <> Raise e) /\
  (forall s retrievals,
      rag_retrievals host reportData userQuestion = Return (s, retrievals) ->
      isArray retrievals = true).
Proof.
  unfold rag_retrievals.
  destruct (status_never_rejects host) as [p [Hp Hnot]]. rewrite Hp.
  destruct p as [|s|e']; [split; [discriminate | intros ? ? H; discriminate]
                         | | now destruct (Hnot e')].
  cbn [await async_bind].
  destruct (ToBoolean (ready s)).
  - destruct (async_try _ _) as [r| |] eqn:Htry.
    + split; [discriminate|]. intros s' r' H. injection H as _ <-.
      now destruct (isArray r) eqn:Hr.
    + exfalso. unfold async_try in Htry.
      destruct (query <~ now_or_throw (rag_query reportData userQuestion) ;; _) ; discriminate.
    + split; [discriminate | intros ? ? H; discriminate].
  - cbn [async_bind]. split; [discriminate|]. intros s' r' H. injection H as _ <-. reflexivity.
Qed.

(** * The checks of the image route *)

Lemma split_pieces (c : N) (s : jsstring) :
  exists first rest,
    split c s = first :: rest /\
    s = first ++ flat_map (cons c) rest /\
    Forall (fun piece => ~ In c piece) (first :: rest).
Proof.
  induction s as [|d s [first [rest [Hsplit [Hjoin Hfree]]]]].
  - exists [], []. repeat split. constructor; [intros [] | constructor].
  - simpl. destruct (N.eqb_spec d c) as [->|Hd].
    + exists [], (first :: rest). rewrite Hsplit. repeat split.
      * simpl. now rewrite <- Hjoin.
      * constructor; [intros [] | assumption].
    + rewrite Hsplit. exists (d :: first), rest. repeat split.
      * simpl. now rewrite <- Hjoin.
      * inversion Hfree as [|? ? Hfirst Hrest]; subst.
        constructor; [|assumption].
        intros [H|H]; [congruence | contradiction].
Qed.

Lemma split_without (c : N) (s : jsstring) : ~ In c s -> split c s = [s].
Proof.
  induction s as [|d s IH]; intro Hnot; simpl; [reflexivity|].
  destruct (N.eqb_spec d c) as [->|Hd]; [exfalso; apply Hnot; now left|].
  rewrite IH by (intro H; apply Hnot; now right). reflexivity.
Qed.

Lemma lazy_until_semicolon_found (s group : jsstring) :
  lazy_until_semicolon s = Some group ->
  exists after, s = group ++ 59%N :: after /\ ~ In 59%N group /\
                forall c, In c group -> is_line_terminator c = false.
Proof.
  revert group. induction s as [|c s IH]; intros group H; simpl in H; [discriminate|].
  destruct (N.eqb_spec c 59) as [->|Hc].
  - injection H as <-. exists s. repeat split; [intros [] | intros ? []].
  - destruct (is_line_terminator c) eqn:Hlt; [discriminate|].
    destruct (lazy_until_semicolon s) as [g|]; [|discriminate].
    injection H as <-. destruct (IH g eq_refl) as [after [-> [Hfree Hline]]].
    exists after. repeat split.
    + intros [H|H]; [congruence | contradiction].
    + intros d [<-|Hd]; [assumption | now apply Hline].
Qed.

Lemma lazy_until_semicolon_finds (group after : jsstring) :
  ~ In 59%N group -> (forall c, In c group -> is_line_terminator c = false) ->
  lazy_until_semicolon (group ++ 59%N :: after) = Some group.
Proof.
  induction group as [|c group IH]; intros Hfree Hline; simpl; [reflexivity|].
  destruct (N.eqb_spec c 59) as [->|Hc]; [exfalso; apply Hfree; now left|].
  rewrite (Hline c (or_introl eq_refl)).
  rewrite IH; [reflexivity | intro H; apply Hfree; now right
                            | intros d Hd; apply Hline; now right].
Qed.


Lemma match_mime_found (s group : jsstring) :
  match_mime s = Some group ->
  exists before after, s = before ++ 58%N :: group ++ 59%N :: after.
Proof.
  induction s as [|c s IH]; intro H; simpl in H; [discriminate|].
  destruct (N.eqb_spec c 58) as [->|Hc].
  - destruct (lazy_until_semicolon s) as [g|] eqn:Hlazy.
    + injection H as <-. apply lazy_until_semicolon_found in Hlazy as [after [-> _]].
      now exists [], after.
    + destruct (IH H) as [before [after ->]]. now exists (58%N :: before), after.
  - destruct (IH H) as [before [after ->]]. now exists (c :: before), after.
Qed.



Lemma starts_with_before (pat s rest : jsstring) (c : N) :
  starts_with pat (s ++ c :: rest) = true -> ~ In c pat -> starts_with pat s = true.
Proof.
  revert s. induction pat as [|p pat IH]; intros s H Hnot; [reflexivity|].
  destruct s as [|d s]; simpl in H; apply andb_prop in H as [Hp Hrest].
  - apply N.eqb_eq in Hp. exfalso. apply Hnot. now left.
  - simpl. rewrite Hp. apply IH; [assumption | intro Hin; apply Hnot; now right].
Qed.

(** X14. The checks of the image route pass only for a string that
    starts with [data:], whose text before the first comma holds the media
    type between a colon and a semicolon, the media type starting with
    [image/], and whose text after that comma, up to the next comma if
    there is one, is the non-empty data. *)
Theorem accepted_image_is_a_data_url (base64 : value) (mimeType data : jsstring) :
  check_image base64 = Image mimeType data ->
  exists header before after rest,
    base64 = VString (header ++ 44%N :: data ++ flat_map (cons 44%N) rest) /\
    starts_with (lit "data:") header = true /\
    header = before ++ 58%N :: mimeType ++ 59%N :: after /\
    starts_with (lit "image/") mimeType = true /\
    ~ In 44%N header /\ ~ In 44%N data /\ data <> [].
Proof.
  unfold check_image. intro H.
  destruct (ToBoolean base64); [|discriminate]. cbn [negb] in H.
  destruct base64 as [| | | |s| |]; try discriminate.
  destruct (starts_with (lit "data:") s) eqn:Hdata; [|discriminate]. cbn [negb] in H.
  destruct (split_pieces 44 s) as [header [pieces [Hsplit [Hjoin Hfree]]]].
  rewrite Hsplit in H. cbn [hd] in H.
  destruct pieces as [|piece rest]; [discriminate|]. cbn [nth_error] in H.
  destruct header as [|h header]; [discriminate|].
  destruct piece as [|d piece]; [discriminate|]. cbn [truthy_string negb orb] in H.
  destruct (match_mime (h :: header)) as [mime|] eqn:Hmime; [|discriminate].
  destruct mime as [|m mime]; [discriminate|]. cbn [truthy_string negb orb] in H.
  destruct (starts_with (lit "image/") (m :: mime)) eqn:Himage; [|discriminate].
  injection H as <- <-.
  apply match_mime_found in Hmime as [before [after Hheader]].
  inversion Hfree as [|? ? Hh Hrest]; subst. inversion Hrest as [|? ? Hd _]; subst.
  exists (h :: header), before, after, rest. repeat split; try assumption.
  - apply (starts_with_before (lit "data:") (h :: header) _ 44%N Hdata).
    vm_compute. intuition discriminate.
  - discriminate.
Qed.

Lemma split_two (c : N) (header data : jsstring) :
  ~ In c header -> ~ In c data -> split c (header ++ c :: data) = [header; data].
Proof.
  intros Hheader Hdata. rewrite split_at_first by assumption.
  now rewrite split_without.
Qed.

(** X15. A data URL of the usual form, [data:], a media type that starts
    with [image/], a semicolon, parameters, a comma and non-empty data,
    passes the checks with that media type and that data; the media type
    may hold neither semicolon nor comma nor line terminator, the
    parameters and the data no comma. *)
Theorem usual_data_url_is_accepted (mimeType params data : jsstring) :
  starts_with (lit "image/") mimeType = true ->
  (forall c, In c mimeType -> c <> 59%N /\ c <> 44%N /\ is_line_terminator c = false) ->
  ~ In 44%N params ->
  ~ In 44%N data ->
  data <> [] ->
  check_image (VString (lit "data:" ++ mimeType ++ 59%N :: params ++ 44%N :: data)) =
  Image mimeType data.
Proof.
  intros Himage Hmime Hparams Hdata Hnonempty.
  assert (Hheader : ~ In 44%N (lit "data:" ++ mimeType ++ 59%N :: params)).
  { intro H. apply in_app_or in H as [H|H]; [revert H; vm_compute; intuition discriminate|].
    apply in_app_or in H as [H|H]; [now apply Hmime in H|].
    destruct H as [H|H]; [discriminate | contradiction]. }
  assert (Hsplit : split 44 (lit "data:" ++ mimeType ++ 59%N :: params ++ 44%N :: data) =
                   [lit "data:" ++ mimeType ++ 59%N :: params; data]).
  { transitivity (split 44 ((lit "data:" ++ mimeType ++ 59%N :: params) ++ 44%N :: data));
      [f_equal; now rewrite <- !app_assoc | now apply split_two]. }
  unfold check_image. rewrite Hsplit.
  change (lit "data:") with [100; 97; 116; 97; 58]%N.
  cbn [app ToBoolean negb starts_with N.eqb Pos.eqb andb hd nth_error truthy_string orb].
  destruct data as [|d data]; [contradiction|]. cbn [truthy_string negb].
  cbn [match_mime N.eqb Pos.eqb].
  rewrite lazy_until_semicolon_finds;
    [| intro H; now apply Hmime in H | intros c Hc; now apply Hmime in Hc].
  destruct mimeType as [|m mimeType]; [discriminate|]. cbn [truthy_string negb orb].
  now rewrite Himage.
Qed.


(** ** The further properties at sample inputs *)

Lemma launch_failure_gives_install_advisory_witness :
  queryFAISSVectorStore no_python (lit "fever") None = Normal (Fulfilled launch_advisory).
Proof.
  apply (launch_failure_gives_install_advisory no_python (lit "fever") None []
           (HostError (lit "spawn /app/.venv/bin/python ENOENT")) [Close (Some (-2))]).
  reflexivity.
Defined.

Lemma unparseable_output_gives_one_line_advisory_witness :
  queryFAISSVectorStore (worker [Close (Some 0)]) (lit "fever") None =
  Normal (Fulfilled parse_advisory).
Proof.
  apply (unparseable_output_gives_one_line_advisory
           (worker [Close (Some 0)]) (lit "fever") None [] [] (SyntaxError []));
    [reflexivity | vm_compute; reflexivity].
Defined.

Lemma silent_child_leaves_promises_pending_witness :
  queryFAISSVectorStore (worker [Data (lit "Loading index")]) (lit "fever") None =
    Normal Pending /\
  checkRAGSystemStatus (worker [Data (lit "Loading index")]) = Normal Pending.
Proof.
  destruct (silent_child_leaves_promises_pending
              (worker [Data (lit "Loading index")]) (lit "fever") None [lit "Loading index"])
    as [Hquery Hstatus].
  split; [apply Hquery | apply Hstatus]; reflexivity.
Defined.

Lemma query_result_depends_on_code_and_output_only_witness :
  queryFAISSVectorStore
    (worker [Data (json_text "{'chunks': "); Data (json_text "['a']}"); Close (Some 0)])
    (lit "fever") None =
  queryFAISSVectorStore
    (worker [Data (json_text "{'chunks': ['a']}"); Close (Some 0); Close (Some 1)])
    (lit "cough") (Some (Number.of_Z 3)).
Proof.
  apply (query_result_depends_on_code_and_output_only
           (worker [Data (json_text "{'chunks': "); Data (json_text "['a']}"); Close (Some 0)])
           (worker [Data (json_text "{'chunks': ['a']}"); Close (Some 0); Close (Some 1)])
           (lit "fever") (lit "cough") None (Some (Number.of_Z 3))
           [json_text "{'chunks': "; json_text "['a']}"] [json_text "{'chunks': ['a']}"]
           (Some 0) [] [Close (Some 1)]);
    reflexivity.
Defined.

Lemma status_depends_on_code_and_output_only_witness :
  checkRAGSystemStatus
    (worker [Data (json_text "{'ready': "); Data (json_text "false}"); Close (Some 0)]) =
  checkRAGSystemStatus
    (worker [Data (json_text "{'ready': false}"); Close (Some 0); Close (Some 1)]).
Proof.
  apply (status_depends_on_code_and_output_only
           (worker [Data (json_text "{'ready': "); Data (json_text "false}"); Close (Some 0)])
           (worker [Data (json_text "{'ready': false}"); Close (Some 0); Close (Some 1)])
           [json_text "{'ready': "; json_text "false}"] [json_text "{'ready': false}"]
           (Some 0) [] [Close (Some 1)]);
    reflexivity.
Defined.

Lemma ready_is_passed_through_uncoerced_witness :
  checkRAGSystemStatus (worker [Data (json_text "{'ready': 1}"); Close (Some 0)]) =
  Normal (Fulfilled
    {| ready := VNumber (Number.of_Z 1);
       message := lit "RAG system ready with undefined documents";
       details := details_status (VObject [(lit "ready", VNumber (Number.of_Z 1))]) |}).
Proof.
  apply (ready_is_passed_through_uncoerced
           (worker [Data (json_text "{'ready': 1}"); Close (Some 0)])
           [json_text "{'ready': 1}"] []
           (VObject [(lit "ready", VNumber (Number.of_Z 1))])
           (VNumber (Number.of_Z 1)) VUndefined (lit "undefined"));
    [reflexivity | vm_compute; reflexivity | reflexivity | reflexivity | reflexivity].
Defined.

Lemma text_line_reads_back_witness :
  JSON.parse (skipn 2 (text_line [72; 105; 34; 92; 10; 33]%N)) =
  Normal (VString [72; 105; 34; 92; 10; 33]%N).
Proof.
  apply (text_line_reads_back [72; 105; 34; 92; 10; 33]%N).
  intros c H. simpl in H.
  destruct H as [<-|[<-|[<-|[<-|[<-|[<-|[]]]]]]]; [left | left | left | left | right | left];
    try reflexivity; lia.
Defined.

Lemma control_character_breaks_text_line_witness :
  JSON.parse (skipn 2 (text_line [97; 9; 98]%N)) =
  Throw (SyntaxError (skipn 2 (text_line [97; 9; 98]%N))).
Proof.
  apply (control_character_breaks_text_line [97; 9; 98]%N 9%N);
    [simpl; tauto | lia | discriminate].
Defined.

Lemma status_route_never_answers_500_witness :
  status_failure (status_process no_python)
                 (launch_error_status (HostError (lit "spawn /app/.venv/bin/python ENOENT"))) /\
  GET no_python (lit "2026-01-01T00:00:00.000Z") =
  Return (reply_ok (launch_error_status (HostError (lit "spawn /app/.venv/bin/python ENOENT")))
                   (lit "2026-01-01T00:00:00.000Z")).
Proof.
  assert (Hfail : status_failure (status_process no_python)
                    (launch_error_status (HostError (lit "spawn /app/.venv/bin/python ENOENT"))))
    by apply (launch_error [] _ [Close (Some (-2))]).
  split; [exact Hfail|].
  destruct (status_route_never_answers_500 no_python (lit "2026-01-01T00:00:00.000Z"))
    as [_ Hreported].
  exact (proj1 (Hreported _ Hfail)).
Defined.

Lemma failed_probe_gives_fallback_retrievals_witness :
  rag_retrievals no_python (VString (lit "Hb 9.1 g/dL")) (VString (lit "Am I anaemic?")) =
  Return (launch_error_status (HostError (lit "spawn /app/.venv/bin/python ENOENT")),
          strings
            [lit "RAG system status: Python environment not available";
             lit "Using general medical knowledge for this query";
             lit "To enable full RAG capabilities, please build the FAISS index using your medical documents"]).
Proof.
  apply (failed_probe_gives_fallback_retrievals no_python
           (VString (lit "Hb 9.1 g/dL")) (VString (lit "Am I anaemic?"))
           (launch_error_status (HostError (lit "spawn /app/.venv/bin/python ENOENT")))).
  apply (launch_error [] _ [Close (Some (-2))]).
Defined.

Lemma retrievals_are_what_the_bridge_resolved_witness :
  exists s,
    rag_retrievals ready_worker (VString (lit "Hb 9.1 g/dL")) (VString (lit "Am I anaemic?")) =
    Return (s, strings [lit "a"; lit "b"]).
Proof.
  eexists.
  apply (retrievals_are_what_the_bridge_resolved ready_worker
           (lit "Hb 9.1 g/dL") (lit "Am I anaemic?") _ [VString (lit "a"); VString (lit "b")]);
    [vm_compute; reflexivity | reflexivity | vm_compute; reflexivity].
Defined.

Lemma retrievals_never_throw_witness :
  rag_retrievals no_python VNull VNull =
    Return (launch_error_status (HostError (lit "spawn /app/.venv/bin/python ENOENT")),
            not_ready_retrievals
              (launch_error_status (HostError (lit "spawn /app/.venv/bin/python ENOENT")))) /\
  isArray (not_ready_retrievals
             (launch_error_status (HostError (lit "spawn /app/.venv/bin/python ENOENT")))) = true.
Proof.
  assert (H : rag_retrievals no_python VNull VNull =
              Return (launch_error_status (HostError (lit "spawn /app/.venv/bin/python ENOENT")),
                      not_ready_retrievals
                        (launch_error_status
                           (HostError (lit "spawn /app/.venv/bin/python ENOENT")))))
    by reflexivity.
  split; [exact H|].
  exact (proj2 (retrievals_never_throw no_python VNull VNull) _ _ H).
Defined.

Lemma accepted_image_is_a_data_url_witness :
  exists header before after rest,
    VString (lit "data:image/png;base64,iVBORw0KGgo=") =
      VString (header ++ 44%N :: lit "iVBORw0KGgo=" ++ flat_map (cons 44%N) rest) /\
    starts_with (lit "data:") header = true /\
    header = before ++ 58%N :: lit "image/png" ++ 59%N :: after /\
    starts_with (lit "image/") (lit "image/png") = true /\
    ~ In 44%N header /\ ~ In 44%N (lit "iVBORw0KGgo=") /\ lit "iVBORw0KGgo=" <> [].
Proof.
  apply (accepted_image_is_a_data_url
           (VString (lit "data:image/png;base64,iVBORw0KGgo="))
           (lit "image/png") (lit "iVBORw0KGgo=")).
  vm_compute. reflexivity.
Defined.

Lemma usual_data_url_is_accepted_witness :
  check_image (VString (lit "data:image/jpeg;base64,/9j/4AAQ")) =
  Image (lit "image/jpeg") (lit "/9j/4AAQ").
Proof.
  apply (usual_data_url_is_accepted (lit "image/jpeg") (lit "base64") (lit "/9j/4AAQ")).
  - reflexivity.
  - intros c H. vm_compute in H.
    repeat (destruct H as [<-|H]; [repeat split; discriminate|]). contradiction.
  - vm_compute. intuition discriminate.
  - vm_compute. intuition discriminate.
  - discriminate.
Defined.

